(** * Market snapshot updater: a shallow embedding of [update_snapshot.py]

    The script downloads closing prices, turns the last two valid
    observations of every catalogued instrument into a quote, renders the
    quotes as table rows and splices the rows between the [<tbody>] and
    [</tbody>] markers of [index.html].

    Python [float] is IEEE 754 binary64; it is modelled by [spec_float]
    with the operations of [SpecFloat] at precision 53 and maximal
    exponent 1024.  Python [str] is modelled by [string]. *)

From Stdlib Require Import ZArith Ascii String List Lia Bool.
From Stdlib Require Import DecimalString DecimalN DecimalPos.
From Stdlib Require Import Floats.SpecFloat.
From stdpp Require Import base option list gmap strings.

Local Open Scope Z_scope.

(** ** Exceptions *)

(** The exceptions of the script; [TransportError] stands for whatever
    [yf.download] raises when the batch request fails. *)
Inductive exn :=
  | KeyError | IndexError | TypeError | ValueError | ZeroDivisionError
  | TransportError.

Inductive result (A : Type) :=
  | Ok (a : A)
  | Raise (e : exn).
Arguments Ok {A} a.
Arguments Raise {A} e.

Definition rbind {A B} (r : result A) (k : A -> result B) : result B :=
  match r with Ok a => k a | Raise e => Raise e end.

(** ** Python floats *)

Module Float.

Definition prec : Z := 53.
Definition emax : Z := 1024.

Definition sub : spec_float -> spec_float -> spec_float := SFsub prec emax.
Definition mul : spec_float -> spec_float -> spec_float := SFmul prec emax.
Definition abs : spec_float -> spec_float := SFabs.

(** Truth value of a float: [bool(x)] is [x != 0.0]. *)
Definition truthy (x : spec_float) : bool :=
  match x with S754_zero _ => false | _ => true end.

(** [x / y]: a zero divisor is a [ZeroDivisionError], whatever [x] is. *)
Definition div (x y : spec_float) : result spec_float :=
  if truthy y then Ok (SFdiv prec emax x y) else Raise ZeroDivisionError.

(** [x >= y], [x == y] and [x < y]; all false as soon as one side is NaN. *)
Definition geb (x y : spec_float) : bool := SFleb y x.
Definition eqb (x y : spec_float) : bool := SFeqb x y.
Definition ltb (x y : spec_float) : bool := SFltb x y.

Definition is_nan (x : spec_float) : bool :=
  match x with S754_nan => true | _ => false end.

Definition is_finite (x : spec_float) : bool :=
  match x with S754_zero _ | S754_finite _ _ _ => true | _ => false end.

(** The literals of the script. *)
Definition zero : spec_float := S754_zero false.
Definition one : spec_float := S754_finite false 4503599627370496 (-52).
Definition ten : spec_float := S754_finite false 5629499534213120 (-49).
Definition hundred : spec_float := S754_finite false 7036874417766400 (-46).

End Float.

(** ** Fixed-point formatting: the format specs [,.2f], [.3f] and [.4f] *)

Module Fmt.

(** [|m * 2^e| * 10^d] rounded to the nearest integer, ties to even:
    the correctly rounded conversion that [float.__format__] performs. *)
Definition scaled (d : nat) (m : positive) (e : Z) : Z :=
  let num := Z.pos m * 10 ^ Z.of_nat d in
  if 0 <=? e then num * 2 ^ e
  else
    let den := 2 ^ (- e) in
    let q := num / den in
    let r := num mod den in
    match 2 * r ?= den with
    | Lt => q
    | Gt => q + 1
    | Eq => if Z.even q then q else q + 1
    end.

Definition digit (n : Z) : ascii := ascii_of_nat (48 + Z.to_nat (n mod 10)).

(** The [d] low decimal digits of [n], most significant first. *)
Fixpoint frac_digits (d : nat) (n : Z) : string :=
  match d with
  | O => ""
  | S d' => frac_digits d' (n / 10) +:+ String (digit n) ""
  end.

(** Decimal digits of a natural number, without leading zeros. *)
Definition int_digits (n : Z) : string :=
  NilZero.string_of_uint (N.to_uint (Z.to_N n)).

(** Groups of three taken from the least significant end; the argument
    and every group are in reversed (least significant first) order. *)
Fixpoint chunk3 (l : list ascii) : list (list ascii) :=
  match l with
  | a :: b :: c :: ((_ :: _) as tl) => [a; b; c] :: chunk3 tl
  | _ => [l]
  end.

Definition groups (s : string) : list string :=
  rev (map (fun g => string_of_list_ascii (rev g))
           (chunk3 (rev (list_ascii_of_string s)))).

(** The [,] option: a comma between groups of three digits. *)
Definition group_thousands (s : string) : string :=
  String.concat "," (groups s).

Definition sign_str (s : bool) : string := if s then "-" else "".

Definition point (d : nat) : string :=
  match d with O => "" | _ => "." end.

Definition unsigned (grouping : bool) (d : nat) (n : Z) : string :=
  let ip := int_digits (n / 10 ^ Z.of_nat d) in
  (if grouping then group_thousands ip else ip)
    +:+ point d +:+ frac_digits d n.

(** [format(v, ",.df")] when [grouping], [format(v, ".df")] otherwise. *)
Definition fixed (grouping : bool) (d : nat) (v : spec_float) : string :=
  match v with
  | S754_nan => "nan"
  | S754_infinity s => sign_str s +:+ "inf"
  | S754_zero s => sign_str s +:+ unsigned grouping d 0
  | S754_finite s m e => sign_str s +:+ unsigned grouping d (scaled d m e)
  end.

End Fmt.

(** ** Formatting helpers *)

Definition fmt_price (val : spec_float) : string :=
  let a := Float.abs val in
  if Float.geb a Float.ten then Fmt.fixed true 2 val
  else if Float.geb a Float.one then Fmt.fixed false 3 val
  else Fmt.fixed false 4 val.

Definition fmt_change (val ref : spec_float) : string :=
  let sign := if Float.geb val Float.zero then "+" else "" in
  let a := Float.abs ref in
  if Float.geb a Float.ten then sign +:+ Fmt.fixed true 2 val
  else if Float.geb a Float.one then sign +:+ Fmt.fixed false 3 val
  else sign +:+ Fmt.fixed false 4 val.

(** ** Console output and the target document *)

(** The lines the script prints, by the statement that prints them. *)
Inductive message :=
  | MsgDownloading (n : nat)
  | MsgSkipShort (ticker name : string)
  | MsgSkipExc (ticker name : string) (exc : exn)
  | MsgFetched (got total : nat)
  | MsgNoData
  | MsgWrote
  | MsgDone.

Inductive event :=
  | EvPrint (m : message)
  | EvRead
  | EvWrite (content : string).

(** [html] is the text of [HTML_FILE], as reading in text mode gives it
    and as writing in text mode takes it ([Disk] below relates it to the
    bytes of the file); [trace] lists what the run has done so far,
    oldest event first. *)
Record world := World { html : string; trace : list event }.

Definition M (A : Type) : Type := world -> result A * world.

Definition ret {A} (a : A) : M A := fun w => (Ok a, w).
Definition raise {A} (e : exn) : M A := fun w => (Raise e, w).
Definition bind {A B} (c : M A) (k : A -> M B) : M B :=
  fun w => match c w with
           | (Ok a, w') => k a w'
           | (Raise e, w') => (Raise e, w')
           end.
Definition lift {A} (r : result A) : M A := fun w => (r, w).

(** [try: body except (KeyError, IndexError, TypeError) as exc: handler] *)
Definition caught (e : exn) : bool :=
  match e with KeyError | IndexError | TypeError => true | _ => false end.

Definition try_except {A} (body : M A) (handler : exn -> M A) : M A :=
  fun w => match body w with
           | (Raise e, w') => if caught e then handler e w' else (Raise e, w')
           | r => r
           end.

Declare Scope py_scope.
Delimit Scope py_scope with py.
Notation "x <- c ;; k" := (bind c (fun x => k))
  (at level 100, c at next level, right associativity) : py_scope.
Notation "c ;;; k" := (bind c (fun _ => k))
  (at level 100, right associativity) : py_scope.
Local Open Scope py_scope.

Definition log (e : event) : M unit :=
  fun w => (Ok tt, World (html w) (trace w ++ [e])).

Definition print (m : message) : M unit := log (EvPrint m).

Definition read_text : M string :=
  fun w => (Ok (html w), World (html w) (trace w ++ [EvRead])).

Definition write_text (s : string) : M unit :=
  fun w => (Ok tt, World s (trace w ++ [EvWrite s])).

(** ** Strings: [str.index] and slices *)

Module Str.

Fixpoint take (n : nat) (s : string) : string :=
  match n, s with
  | S n', String c s' => String c (take n' s')
  | _, _ => ""
  end.

Fixpoint drop (n : nat) (s : string) : string :=
  match n, s with
  | S n', String _ s' => drop n' s'
  | _, _ => s
  end.

Fixpoint starts_with (p s : string) : bool :=
  match p, s with
  | "", _ => true
  | String a p', String b s' => if decide (a = b) then starts_with p' s' else false
  | _, _ => false
  end.

(** Position of the first occurrence of [sub] in [s], if there is one. *)
Fixpoint find (sub s : string) : option nat :=
  if starts_with sub s then Some O
  else match s with
       | "" => None
       | String _ s' => S <$> find sub s'
       end.

(** [s.index(sub)]: as [find], but an absent [sub] is a [ValueError]. *)
Definition index (s sub : string) : result nat :=
  match find sub s with
  | Some i => Ok i
  | None => Raise ValueError
  end.

Definition contains (sub s : string) : bool := bool_decide (is_Some (find sub s)).

Definition nl : string := String "010"%char "".

End Str.

(** ** Catalog *)

Definition instrument : Type := string * string.
Definition section : Type := string * list instrument.

Definition SECTIONS : list section :=
  [ ("Currencies &amp; Commodities",
     [ ("US Dollar Index", "DX-Y.NYB");
       ("AUD/USD", "AUDUSD=X");
       ("USD/JPY", "JPY=X");
       ("USD/HKD", "HKD=X");
       ("USD/CHF", "CHF=X");
       ("USD/ILS", "ILS=X");
       ("EUR/ILS", "EURILS=X");
       ("EUR/CHF", "EURCHF=X");
       ("EUR/USD", "EURUSD=X");
       ("EUR/GBP", "EURGBP=X");
       ("GBP/CHF", "GBPCHF=X");
       ("GBP/USD", "GBPUSD=X");
       ("XAU/USD", "GC=F");
       ("XAG/USD", "SI=F");
       ("BTC/USD", "BTC-USD");
       ("ETH/USD", "ETH-USD");
       ("Crude Oil WTI", "CL=F");
       ("Brent Oil", "BZ=F") ]);
    ("U.S. Treasury Yields &amp; ETFs",
     [ ("U.S. 3M", "^IRX");
       ("U.S. 5Y", "^FVX");
       ("U.S. 10Y", "^TNX");
       ("U.S. 30Y", "^TYX");
       ("iShares US Treasury", "GOVT");
       ("SPDR 1-3M T-Bill", "BIL");
       ("iShares 1-3Y Treasury", "SHY");
       ("iShares 7-10Y Treasury", "IEF");
       ("iShares 20+Y Treasury", "TLT");
       ("ProShares Ultra Short 20+Y", "TBT");
       ("PIMCO 25+Y Zero Coupon", "ZROZ") ]);
    ("Global Market Indices",
     [ ("MSCI World", "URTH");
       ("Nikkei 225", "^N225");
       ("Shanghai", "000001.SS");
       ("Hang Seng", "^HSI");
       ("Nifty 50", "^NSEI");
       ("TA 35", "^TA35.TA");
       ("Euro Stoxx 50", "^STOXX50E");
       ("SMI", "^SSMI");
       ("DAX", "^GDAXI");
       ("CAC 40", "^FCHI");
       ("S&amp;P 500", "^GSPC");
       ("Dow Jones", "^DJI");
       ("Nasdaq 100", "^NDX");
       ("S&amp;P 500 VIX", "^VIX") ]) ].

(** ** Downloaded data *)

Record timestamp := Timestamp { ts_year : Z; ts_month : Z; ts_day : Z }.

(** A column of closing prices: one observation per trading day, oldest
    first; a missing price is a NaN. *)
Definition series : Type := list (timestamp * spec_float).

(** The downloaded table: field name, then ticker. *)
Abbreviation frame := (gmap string (gmap string series)).

Definition getitem {V} (m : gmap string V) (k : string) : result V :=
  match m !! k with
  | Some v => Ok v
  | None => Raise KeyError
  end.

Definition dropna (s : series) : series :=
  filter (fun obs => Float.is_nan (snd obs) = false) s.

(** [l[-k]] for [k >= 1]. *)
Definition iloc_neg {A} (l : list A) (k : nat) : result A :=
  match rev l !! (k - 1)%nat with
  | Some x => Ok x
  | None => Raise IndexError
  end.

Module Quote.
Record t := Make
  { last : spec_float; chg : spec_float; chg_pct : spec_float; time : timestamp }.
End Quote.

(** ** Fetcher *)

(** [(chg / prev) * 100 if prev else 0.0] *)
Definition percent_change (chg prev : spec_float) : result spec_float :=
  if Float.truthy prev
  then rbind (Float.div chg prev) (fun q => Ok (Float.mul q Float.hundred))
  else Ok Float.zero.

Fixpoint for_each {A S} (l : list A) (body : S -> A -> M S) (s : S) : M S :=
  match l with
  | [] => ret s
  | x :: l' => s' <- body s x;; for_each l' body s'
  end.

(** The body of the inner loop of [fetch_data], for one instrument. *)
Definition fetch_symbol (data : frame) (results : gmap string Quote.t)
    (ins : instrument) : M (gmap string Quote.t) :=
  let '(name, ticker) := ins in
  try_except
    (by_ticker <- lift (getitem data "Close");;
     column <- lift (getitem by_ticker ticker);;
     let closes := dropna column in
     if (length closes <? 2)%nat then
       print (MsgSkipShort ticker name);;; ret results
     else
       l <- lift (iloc_neg closes 1);;
       p <- lift (iloc_neg closes 2);;
       let last := snd l in
       let prev := snd p in
       let chg := Float.sub last prev in
       chg_pct <- lift (percent_change chg prev);;
       last_dt <- lift (iloc_neg (map fst closes) 1);;
       ret (<[ticker := Quote.Make last chg chg_pct last_dt]> results))
    (fun exc => print (MsgSkipExc ticker name exc);;; ret results).

Definition all_tickers (sections : list section) : list string :=
  flat_map (fun sec => map snd (snd sec)) sections.

(** [download] stands for [yf.download]: the table it returns for a list
    of tickers, or the exception it raises. *)
Definition fetch_data (sections : list section)
    (download : list string -> result frame) : M (gmap string Quote.t) :=
  print (MsgDownloading (length (all_tickers sections)));;;
  data <- lift (download (all_tickers sections));;
  for_each sections
    (fun results sec => for_each (snd sec) (fetch_symbol data) results) ∅.

(** ** HTML generation *)

Definition pad2 (n : Z) : string :=
  String (Fmt.digit (n / 10)) (String (Fmt.digit n) "").

(** [dt.strftime("%d/%m")] *)
Definition fmt_time (dt : timestamp) : string :=
  pad2 (ts_day dt) +:+ "/" +:+ pad2 (ts_month dt).

Definition dq : string := String "034"%char "".

Definition css_class (chg : spec_float) : string :=
  if Float.geb chg Float.zero then "chg-pos" else "chg-neg".

Definition comment_line (section_title : string) : string :=
  "              <!-- ── " +:+ section_title +:+ " ── -->".

Definition header_line (section_title : string) : string :=
  "              <tr class=" +:+ dq +:+ "section-header" +:+ dq +:+ ">"
  +:+ "<td colspan=" +:+ dq +:+ "5" +:+ dq +:+ ">" +:+ section_title
  +:+ "</td></tr>".

Definition row (name : string) (d : Quote.t) : string :=
  let cls := css_class (Quote.chg d) in
  "              <tr>"
  +:+ "<td>" +:+ name +:+ "</td>"
  +:+ "<td>" +:+ fmt_price (Quote.last d) +:+ "</td>"
  +:+ "<td class=" +:+ dq +:+ cls +:+ dq +:+ ">"
      +:+ fmt_change (Quote.chg d) (Quote.last d) +:+ "</td>"
  +:+ "<td class=" +:+ dq +:+ cls +:+ dq +:+ ">"
      +:+ fmt_change (Quote.chg_pct d) Float.hundred +:+ "%</td>"
  +:+ "<td>" +:+ fmt_time (Quote.time d) +:+ "</td>"
  +:+ "</tr>".

(** The rows of one section: instruments without a quote are passed over. *)
Definition rows (results : gmap string Quote.t) (instruments : list instrument)
    : list string :=
  flat_map (fun ins : instrument =>
              let '(name, ticker) := ins in
              match results !! ticker with
              | None => []
              | Some d => [row name d]
              end) instruments.

Definition tbody_lines (sections : list section) (results : gmap string Quote.t)
    : list string :=
  flat_map (fun sec : section =>
              let '(section_title, instruments) := sec in
              comment_line section_title :: header_line section_title
                :: rows results instruments) sections.

Definition build_tbody (sections : list section) (results : gmap string Quote.t)
    : string :=
  String.concat Str.nl (tbody_lines sections results).

(** ** Patcher *)

Definition start_tag : string := "<tbody>".
Definition end_tag : string := "</tbody>".

Definition indent : string := "            ".

(** [content[:i] + "\n" + tbody_html + "\n            " + content[j:]] *)
Definition new_content (content tbody_html : string) (i j : nat) : string :=
  Str.take i content +:+ Str.nl +:+ tbody_html +:+ Str.nl +:+ indent
  +:+ Str.drop j content.

Definition update_html (tbody_html : string) : M unit :=
  content <- read_text;;
  a <- lift (Str.index content start_tag);;
  let i := (a + String.length start_tag)%nat in
  j <- lift (Str.index content end_tag);;
  write_text (new_content content tbody_html i j);;;
  print MsgWrote.

(** ** The document on disk

    [update_html] works on text: [Path.read_text] and [Path.write_text]
    open the file in text mode.  Reading turns every [\r\n] and every
    lone [\r] of the file into [\n]; writing turns every [\n] of the text
    into the line separator of the platform.  Characters are taken to be
    stored one to one, as they are for an ASCII document. *)

Module Disk.

Definition CR : ascii := "013"%char.
Definition LF : ascii := "010"%char.

(** The text that [read_text] returns for a file that holds [bytes]. *)
Fixpoint universal_newlines (bytes : string) : string :=
  match bytes with
  | "" => ""
  | String c rest =>
      if decide (c = CR)
      then String LF
             match rest with
             | "" => ""
             | String c' rest' =>
                 if decide (c' = LF) then universal_newlines rest'
                 else universal_newlines rest
             end
      else String c (universal_newlines rest)
  end.

(** The bytes that [write_text] stores for [text] where [os.linesep] is
    [linesep]. *)
Fixpoint write_newlines (linesep text : string) : string :=
  match text with
  | "" => ""
  | String c rest =>
      if decide (c = LF) then linesep +:+ write_newlines linesep rest
      else String c (write_newlines linesep rest)
  end.


End Disk.

(** ** Main *)

Definition main (sections : list section)
    (download : list string -> result frame) : M unit :=
  results <- fetch_data sections download;;
  let total := list_sum (map (fun sec => length (snd sec)) sections) in
  print (MsgFetched (size results) total);;;
  if decide (results = ∅) then
    print MsgNoData
  else
    let tbody := build_tbody sections results in
    update_html tbody;;;
    print MsgDone.

(** ** Sample values

    Each constant is the binary64 number nearest to the decimal it is
    named after. *)

Definition f_1234_5 : spec_float := S754_finite false 5429388417957888 (-42).
Definition f_0_5123 : spec_float := S754_finite false 4614388178203810 (-53).
Definition f_3_14159 : spec_float := S754_finite false 7074231776675438 (-51).
Definition f_5_2 : spec_float := S754_finite false 5854679515581645 (-50).
Definition f_105_2 : spec_float := S754_finite false 7402791887490253 (-46).
Definition f_0_5 : spec_float := S754_finite false 4503599627370496 (-53).
Definition f_0_125 : spec_float := S754_finite false 4503599627370496 (-55).
Definition f_9_9996 : spec_float := S754_finite false 5629274354231751 (-49).
Definition f_0_99996 : spec_float := S754_finite false 9006838966770802 (-53).
Definition f_1234567_891 : spec_float := S754_finite false 5302428716536693 (-32).
Definition f_1e22 : spec_float := S754_finite false 4768371582031250 21.
Definition f_minus_1e_5 : spec_float := S754_finite true 5902958103587057 (-69).

Definition day1 : timestamp := Timestamp 2026 11 3.
Definition day2 : timestamp := Timestamp 2026 11 4.

(** One valid closing price for gold, two for the Australian dollar. *)
Definition gold_column : series := [(day1, S754_nan); (day2, f_1234_5)].
Definition sample_columns : gmap string series :=
  {[ "GC=F" := gold_column; "AUDUSD=X" := [(day1, f_0_5); (day2, f_0_5123)] ]}.
Definition sample_frame : frame := {[ "Close" := sample_columns ]}.

Definition page : string := "<table><tbody>old</tbody></table>".

(** A document in which each marker occurs twice. *)
Definition two_tables : string :=
  "<tbody>a</tbody><p>b</p><tbody>c</tbody>".

(** [v] is the binary64 number nearest to [num / den]. *)
Definition nearest (num den : Z) (v : spec_float) : bool :=
  match v with
  | S754_finite false m e =>
      valid_binary Float.prec Float.emax v
      && (e <? 0) && (2 * Z.abs (Z.pos m * den - num * 2 ^ (- e)) <=? den)
  | _ => false
  end.

(** ** Predicates on rendered text *)

Definition is_digit (c : ascii) : bool :=
  ((48 <=? nat_of_ascii c) && (nat_of_ascii c <=? 57))%nat.

Fixpoint all_chars (P : ascii -> bool) (s : string) : bool :=
  match s with
  | "" => true
  | String c s' => P c && all_chars P s'
  end.

Fixpoint count_char (c : ascii) (s : string) : nat :=
  match s with
  | "" => O
  | String a s' => ((if decide (a = c) then 1 else 0) + count_char c s')%nat
  end.

Definition digits (s : string) : Prop := all_chars is_digit s = true.

(** An integer part written with thousands separators: a leading group
    of one to three digits, then groups of exactly three, joined by
    commas. *)
Definition grouped (s : string) : Prop :=
  exists (g : string) (gs : list string),
    s = String.concat "," (g :: gs)
    /\ digits g /\ (1 <= String.length g <= 3)%nat
    /\ Forall (fun x => digits x /\ String.length x = 3%nat) gs.

(** [s] is an optional minus sign, an integer part, a point and exactly
    [d] decimals; the integer part carries thousands separators when
    [grouping] is set and is a bare run of digits otherwise. *)
Definition fixed_point (grouping : bool) (d : nat) (s : string) : Prop :=
  exists (sgn ip fp : string),
    s = sgn +:+ ip +:+ "." +:+ fp
    /\ (sgn = "" \/ sgn = "-")
    /\ (if grouping then grouped ip else digits ip /\ ip <> "")
    /\ digits fp /\ String.length fp = d.

(** The characters of an unsigned number: digits, commas and the point. *)
Definition numeric (c : ascii) : bool :=
  is_digit c || bool_decide (c = ","%char) || bool_decide (c = "."%char).

(** The sign bit of a float; NaN prints without a sign. *)
Definition sign_bit (v : spec_float) : bool :=
  match v with
  | S754_zero s | S754_infinity s | S754_finite s _ _ => s
  | S754_nan => false
  end.

(** The sign that [fmt_change] puts in front. *)
Definition plus_sign (v : spec_float) : string :=
  if Float.geb v Float.zero then "+" else "".

(** [sub] occurs in [s]. *)
Definition occurs (sub s : string) : Prop :=
  exists p r : string, s = p +:+ sub +:+ r.

(** The world after printing [msgs] and doing nothing else. *)
Definition printed (w : world) (msgs : list message) : world :=
  World (html w) (trace w ++ map EvPrint msgs).


(** ** The fetch loop, one instrument at a time *)

(** The instruments of the catalog, in the order the loops visit them. *)
Definition instruments (sections : list section) : list instrument :=
  flat_map snd sections.

(** The quote that one pass of the loop stores under [ticker], if it
    stores one: the last two entries of the column without its NaNs. *)
Definition quote_of (data : frame) (ticker : string) : option Quote.t :=
  match data !! "Close" with
  | None => None
  | Some by_ticker =>
      match by_ticker !! ticker with
      | None => None
      | Some column =>
          match rev (dropna column) with
          | l :: p :: _ =>
              let chg := Float.sub (snd l) (snd p) in
              Some (Quote.Make (snd l) chg
                      (if Float.truthy (snd p)
                       then Float.mul (SFdiv Float.prec Float.emax chg (snd p))
                                      Float.hundred
                       else Float.zero)
                      (fst l))
          | _ => None
          end
      end
  end.

Definition store (data : frame) (results : gmap string Quote.t)
    (ins : instrument) : gmap string Quote.t :=
  match quote_of data (snd ins) with
  | Some q => <[snd ins := q]> results
  | None => results
  end.

(** What one pass of the loop prints. *)
Definition skip_message (data : frame) (ins : instrument) : list message :=
  let '(name, ticker) := ins in
  match data !! "Close" with
  | None => [MsgSkipExc ticker name KeyError]
  | Some by_ticker =>
      match by_ticker !! ticker with
      | None => [MsgSkipExc ticker name KeyError]
      | Some column =>
          if (length (dropna column) <? 2)%nat
          then [MsgSkipShort ticker name] else []
      end
  end.



(** [m] is the line that reports [ins] as skipped: for too few valid
    closing prices when its column is there, for the missing key when the
    column or the whole [Close] table is not. *)
Definition skip_line (data : frame) (ins : instrument) (m : message) : Prop :=
  (m = MsgSkipShort (snd ins) (fst ins)
   /\ exists (by_ticker : gmap string series) (column : series),
        data !! "Close" = Some by_ticker
        /\ by_ticker !! snd ins = Some column
        /\ (length (dropna column) < 2)%nat)
  \/ (m = MsgSkipExc (snd ins) (fst ins) KeyError
      /\ (data !! "Close" = None
          \/ exists by_ticker : gmap string series,
               data !! "Close" = Some by_ticker /\ by_ticker !! snd ins = None)).

(** [q] is computed from the last two valid closing prices of [ticker]. *)
Definition latest (data : frame) (ticker : string) (q : Quote.t) : Prop :=
  exists (by_ticker : gmap string series) (column older : series)
         (p l : timestamp * spec_float),
    data !! "Close" = Some by_ticker
    /\ by_ticker !! ticker = Some column
    /\ dropna column = older ++ [p; l]
    /\ Quote.last q = snd l
    /\ Quote.chg q = Float.sub (snd l) (snd p)
    /\ Quote.chg_pct q
       = (if Float.truthy (snd p)
          then Float.mul (SFdiv Float.prec Float.emax (Quote.chg q) (snd p))
                         Float.hundred
          else Float.zero)
    /\ Quote.time q = fst l.

(** Every [b] of [s] is followed by a character other than [o]: [s]
    neither holds nor ends with the start of the [bo] in [</tbody>]. *)
Fixpoint clean (s : string) : bool :=
  match s with
  | "" => true
  | String c s' =>
      (if decide (c = "b"%char)
       then match s' with
            | "" => false
            | String y _ => negb (bool_decide (y = "o"%char))
            end
       else true)
      && clean s'
  end.

Definition not_b (c : ascii) : bool := negb (bool_decide (c = "b"%char)).

(** The titles and display names of a catalog are all [clean]. *)
Definition clean_catalog (sections : list section) : bool :=
  forallb (fun sec : section =>
             clean (fst sec)
             && forallb (fun ins : instrument => clean (fst ins)) (snd sec))
          sections.

Definition is_write (e : event) : bool :=
  match e with EvWrite _ => true | _ => false end.

Definition is_read (e : event) : bool :=
  match e with EvRead => true | _ => false end.

(** * Properties *)

(** ** Strings *)

#[local] Arguments String.append !_ _ / : simpl nomatch.

Module StrFacts.

Lemma app_nil_r (s : string) : s +:+ "" = s.
Proof. induction s as [|c s IH]; simpl; [reflexivity | now rewrite IH]. Qed.

Lemma app_assoc (s t u : string) : (s +:+ t) +:+ u = s +:+ t +:+ u.
Proof. induction s as [|c s IH]; simpl; [reflexivity | now rewrite IH]. Qed.

Lemma length_app (s t : string) :
  String.length (s +:+ t) = (String.length s + String.length t)%nat.
Proof. induction s as [|c s IH]; simpl; [reflexivity | now rewrite IH]. Qed.

Lemma take_drop (n : nat) (s : string) : Str.take n s +:+ Str.drop n s = s.
Proof.
  revert s; induction n as [|n IH]; intros [|c s]; simpl; try reflexivity.
  now rewrite IH.
Qed.

Lemma take_app (p r : string) : Str.take (String.length p) (p +:+ r) = p.
Proof. induction p as [|c p IH]; simpl; [now destruct r | now rewrite IH]. Qed.

Lemma drop_app (p r : string) : Str.drop (String.length p) (p +:+ r) = r.
Proof. induction p as [|c p IH]; simpl; [reflexivity | exact IH]. Qed.

Lemma length_take (n : nat) (s : string) :
  (n <= String.length s)%nat -> String.length (Str.take n s) = n.
Proof.
  revert s; induction n as [|n IH]; intros [|c s]; simpl; intros H;
    try reflexivity; try lia.
  rewrite IH; [reflexivity | lia].
Qed.

Lemma take_take_app (n : nat) (s t : string) :
  (n <= String.length s)%nat -> Str.take n (Str.take n s +:+ t) = Str.take n s.
Proof.
  intros H. rewrite <- (length_take n s H) at 1. apply take_app.
Qed.

Lemma starts_with_app (p r : string) : Str.starts_with p (p +:+ r) = true.
Proof.
  induction p as [|c p IH]; simpl; [reflexivity |].
  destruct (decide (c = c)); [exact IH | congruence].
Qed.

Lemma starts_with_inv (p s : string) :
  Str.starts_with p s = true -> exists r, s = p +:+ r.
Proof.
  revert s; induction p as [|a p IH]; intros s H.
  - exists s; reflexivity.
  - destruct s as [|b s]; simpl in H; [discriminate |].
    destruct (decide (a = b)) as [->|]; [|discriminate].
    destruct (IH _ H) as [r ->]. exists r; reflexivity.
Qed.

(** [find] returns an occurrence. *)
Lemma find_Some (sub s : string) (i : nat) :
  Str.find sub s = Some i ->
  s = Str.take i s +:+ sub +:+ Str.drop (i + String.length sub) s.
Proof.
  revert i; induction s as [|c s IH]; intros i; simpl.
  - destruct (Str.starts_with sub "") eqn:E; [|discriminate].
    intros [= <-]. destruct sub; [reflexivity | discriminate].
  - destruct (Str.starts_with sub (String c s)) eqn:E.
    + intros [= <-]. apply starts_with_inv in E as [r E].
      rewrite E at 1. simpl. rewrite E, drop_app. reflexivity.
    + destruct (Str.find sub s) as [k|] eqn:F; [|discriminate].
      intros [= <-]. simpl. f_equal. apply IH. reflexivity.
Qed.

(** ... and it is the first one. *)
Lemma find_first (sub s p r : string) (i : nat) :
  Str.find sub s = Some i -> s = p +:+ sub +:+ r -> (i <= String.length p)%nat.
Proof.
  revert s i; induction p as [|c p IH]; intros s i F ->.
  - simpl in *. destruct (sub +:+ r) eqn:E; simpl in F.
    + destruct (Str.starts_with sub ""); [injection F; simpl; lia | discriminate].
    + rewrite <- E, starts_with_app in F. injection F; lia.
  - simpl in F.
    destruct (Str.starts_with sub (String c (p +:+ sub +:+ r))); [injection F; lia |].
    destruct (Str.find sub (p +:+ sub +:+ r)) as [k|] eqn:G; [|discriminate].
    injection F as <-. specialize (IH _ _ G eq_refl). simpl; lia.
Qed.

Lemma find_occurs (sub s : string) : occurs sub s -> is_Some (Str.find sub s).
Proof.
  intros (p & r & ->). induction p as [|c p IH]; simpl.
  - destruct (sub +:+ r) eqn:E; simpl.
    + destruct sub; [eauto | discriminate].
    + rewrite <- E, starts_with_app. eauto.
  - destruct (Str.starts_with sub _); [eauto |].
    destruct IH as [k ->]. simpl; eauto.
Qed.

Lemma contains_occurs (sub s : string) :
  Str.contains sub s = true <-> occurs sub s.
Proof.
  unfold Str.contains. rewrite bool_decide_eq_true. split.
  - intros [i F]. apply find_Some in F. do 2 eexists; exact F.
  - apply find_occurs.
Qed.

Lemma contains_false (sub s : string) :
  Str.contains sub s = false <-> Str.find sub s = None.
Proof.
  unfold Str.contains. rewrite bool_decide_eq_false, <- eq_None_not_Some.
  reflexivity.
Qed.

Lemma index_Ok (s sub : string) :
  Str.contains sub s = true -> exists i, Str.find sub s = Some i /\ Str.index s sub = Ok i.
Proof.
  unfold Str.contains, Str.index. rewrite bool_decide_eq_true.
  intros [i ->]. eauto.
Qed.

Lemma index_Raise (s sub : string) :
  Str.contains sub s = false -> Str.index s sub = Raise ValueError.
Proof. rewrite contains_false. unfold Str.index. now intros ->. Qed.

End StrFacts.

(** ** Patcher *)

Section Patcher.

Variables (content tbody_html : string) (tr : list event).

(** The two outcomes of [update_html], by what [find] says. *)
Lemma update_html_run :
  update_html tbody_html (World content tr) =
  match Str.find start_tag content, Str.find end_tag content with
  | Some a, Some j =>
      let new := new_content content tbody_html (a + 7) j in
      (Ok tt, World new (tr ++ [EvRead; EvWrite new; EvPrint MsgWrote]))
  | _, _ => (Raise ValueError, World content (tr ++ [EvRead]))
  end.
Proof.
  unfold update_html, bind, read_text, lift, write_text, print, log, Str.index.
  simpl html; simpl trace.
  destruct (Str.find start_tag content) as [a|]; [|reflexivity].
  destruct (Str.find end_tag content) as [j|]; [|reflexivity].
  cbv zeta. simpl html; simpl trace. rewrite <- !List.app_assoc. reflexivity.
Qed.

End Patcher.



Lemma take_marker (sub s : string) (a : nat) :
  Str.find sub s = Some a ->
  Str.take (a + String.length sub) s = Str.take a s +:+ sub.
Proof.
  intros F. pose proof (StrFacts.find_Some _ _ _ F) as E.
  assert (L : (a <= String.length s)%nat).
  { clear E. revert a F; induction s as [|c s IH]; intros a; simpl.
    - destruct (Str.starts_with sub ""); [intros [= <-]; lia | discriminate].
    - destruct (Str.starts_with sub (String c s)); [intros [= <-]; lia |].
      destruct (Str.find sub s) as [k|]; [|discriminate].
      intros [= <-]. specialize (IH k eq_refl). lia. }
  rewrite E at 1. rewrite <- StrFacts.app_assoc.
  rewrite <- (StrFacts.length_take a s L) at 1.
  rewrite <- StrFacts.length_app. apply StrFacts.take_app.
Qed.

Lemma drop_marker (sub s : string) (j : nat) :
  Str.find sub s = Some j ->
  Str.drop j s = sub +:+ Str.drop (j + String.length sub) s.
Proof.
  intros F. pose proof (StrFacts.find_Some _ _ _ F) as E.
  pose proof (StrFacts.take_drop j s) as T.
  rewrite E in T at 3. now apply String.app_inj in T.
Qed.

Lemma find_starts_with (sub s : string) :
  Str.starts_with sub s = true -> Str.find sub s = Some O.
Proof. intros H. destruct s; simpl; now rewrite H. Qed.

Lemma find_le (sub s : string) (a : nat) :
  Str.find sub s = Some a -> (a + String.length sub <= String.length s)%nat.
Proof.
  assert (B : forall x, Str.starts_with sub x = true ->
                        (String.length sub <= String.length x)%nat).
  { intros x H. apply StrFacts.starts_with_inv in H as [r ->].
    rewrite StrFacts.length_app. lia. }
  revert a; induction s as [|c s IH]; intros a; simpl.
  - destruct (Str.starts_with sub "") eqn:E; [|discriminate].
    intros [= <-]. apply B in E. simpl in *; lia.
  - destruct (Str.starts_with sub (String c s)) eqn:E.
    + intros [= <-]. apply B in E. simpl in *; lia.
    + destruct (Str.find sub s) as [k|]; [|discriminate].
      intros [= <-]. specialize (IH k eq_refl). lia.
Qed.

(** Whether [s] starts with [p] is decided by the first [length p]
    characters of [s]. *)
Lemma starts_with_take (p s t : string) (n : nat) :
  (String.length p <= n <= String.length s)%nat ->
  Str.starts_with p (Str.take n s +:+ t) = Str.starts_with p s.
Proof.
  revert s n; induction p as [|a p IH]; intros s n H; [reflexivity |].
  destruct s as [|b s]; simpl in H; [lia |].
  destruct n as [|n]; [lia |]. simpl.
  destruct (decide (a = b)); [apply IH; lia | reflexivity].
Qed.

(** The first occurrence of a marker stays where it is when the text
    after it is replaced. *)
Lemma find_keep_prefix (sub s t : string) (a : nat) :
  Str.find sub s = Some a ->
  Str.find sub (Str.take (a + String.length sub) s +:+ t) = Some a.
Proof.
  revert a; induction s as [|c s IH]; intros a F.
  - pose proof (find_le _ _ _ F) as L. simpl in L.
    assert (a = O) by lia. assert (sub = "") by (destruct sub; [easy | simpl in L; lia]).
    subst. now destruct t.
  - pose proof (find_le _ _ _ F) as L. simpl in F.
    destruct (Str.starts_with sub (String c s)) eqn:E.
    + injection F as <-. apply find_starts_with.
      rewrite starts_with_take; [exact E | simpl in *; lia].
    + destruct (Str.find sub s) as [k|] eqn:G; [|discriminate].
      injection F as <-. simpl Str.take. simpl String.append.
      change (Str.find sub (String c ?x)) with
        (if Str.starts_with sub (String c x) then Some O else S <$> Str.find sub x).
      rewrite (IH k eq_refl).
      change (String c (Str.take (k + String.length sub) s +:+ t))
        with (Str.take (S (k + String.length sub)) (String c s) +:+ t).
      rewrite starts_with_take; [now rewrite E | simpl in *; lia].
Qed.

(** A character that does not occur in [p] separates the search for [p]. *)
Lemma starts_with_sep (p x y : string) (c : ascii) :
  count_char c p = O -> p <> "" ->
  Str.starts_with p x = false ->
  Str.starts_with p (x +:+ String c y) = false.
Proof.
  revert x; induction p as [|a p IH]; intros x C N H; [congruence |].
  simpl in C. destruct (decide (a = c)) as [->|Hac]; [discriminate |].
  destruct x as [|b x]; simpl.
  - destruct (decide (a = c)); [congruence | reflexivity].
  - simpl in H. destruct (decide (a = b)); [|reflexivity].
    destruct p as [|a' p]; [discriminate |].
    apply IH; [exact C | discriminate | exact H].
Qed.

Lemma find_sep (sub x y : string) (c : ascii) :
  count_char c sub = O -> sub <> "" ->
  Str.find sub x = None ->
  Str.find sub (x +:+ String c y)
  = (fun k => (String.length x + 1 + k)%nat) <$> Str.find sub y.
Proof.
  intros C N. induction x as [|b x IH]; intros F.
  - simpl String.append. simpl String.length.
    change (Str.find sub (String c y)) with
      (if Str.starts_with sub (String c y) then Some O else S <$> Str.find sub y).
    destruct sub as [|a sub]; [congruence |].
    simpl in *. destruct (decide (a = c)); [discriminate |].
    now destruct (Str.find (String a sub) y).
  - simpl in F. destruct (Str.starts_with sub (String b x)) eqn:E; [discriminate |].
    destruct (Str.find sub x) as [k|] eqn:G; [discriminate |].
    simpl String.append.
    change (Str.find sub (String b ?z)) with
      (if Str.starts_with sub (String b z) then Some O else S <$> Str.find sub z).
    change (String b (x +:+ String c y)) with (String b x +:+ String c y).
    rewrite (starts_with_sep _ _ _ _ C N E), (IH eq_refl).
    now destruct (Str.find sub y).
Qed.

(** Nothing is found in the part of a text before the first occurrence. *)
Lemma find_take_None (sub s : string) (i j : nat) :
  sub <> "" -> Str.find sub s = Some j -> (i <= j)%nat ->
  Str.find sub (Str.take i s) = None.
Proof.
  intros N F H. destruct (Str.find sub (Str.take i s)) as [k|] eqn:G; [|reflexivity].
  exfalso. pose proof (find_le _ _ _ G) as L.
  pose proof (StrFacts.find_Some _ _ _ G) as E.
  pose proof (StrFacts.take_drop i s) as T. rewrite E in T.
  rewrite !StrFacts.app_assoc in T. symmetry in T.
  pose proof (StrFacts.find_first _ _ _ _ _ F T) as B.
  assert (String.length (Str.take i s) <= i)%nat.
  { clear. revert s; induction i as [|i IH]; intros [|c s]; simpl; try lia.
    specialize (IH s). lia. }
  assert (String.length (Str.take k (Str.take i s)) = k).
  { apply StrFacts.length_take. lia. }
  assert (0 < String.length sub)%nat by (destruct sub; [congruence | simpl; lia]).
  lia.
Qed.


(** C1: when a marker is missing [update_html] raises [ValueError] after
    reading the document and nothing is written, so the document keeps
    its contents; and whenever [update_html] writes, it writes once, the
    complete new content computed from both marker positions. *)
Theorem update_html_missing_marker (content tbody_html : string) (tr : list event) :
  (Str.contains start_tag content = false \/ Str.contains end_tag content = false ->
   update_html tbody_html (World content tr)
   = (Raise ValueError, World content (tr ++ [EvRead])))
  /\ (forall (r : result unit) (w' : world),
        update_html tbody_html (World content tr) = (r, w') ->
        (r = Raise ValueError /\ html w' = content /\ trace w' = tr ++ [EvRead])
        \/ (exists a j : nat,
              Str.find start_tag content = Some a
              /\ Str.find end_tag content = Some j
              /\ r = Ok tt
              /\ html w' = new_content content tbody_html (a + 7) j
              /\ trace w' = tr ++ [EvRead; EvWrite (html w'); EvPrint MsgWrote])).
Proof.
  rewrite update_html_run. split.
  - rewrite !StrFacts.contains_false. intros [-> | ->]; [reflexivity |].
    now destruct (Str.find start_tag content).
  - intros r w'.
    destruct (Str.find start_tag content) as [a|];
      [destruct (Str.find end_tag content) as [j|] |]; intros [= <- <-]; simpl;
      try (left; easy).
    right. exists a, j. easy.
Qed.

Lemma update_html_missing_marker_witness :
  update_html "<tr></tr>" (World "<table><tbody><tr>old</tr></table>" [])
  = (Raise ValueError, World "<table><tbody><tr>old</tr></table>" [EvRead]).
Proof.
  apply (update_html_missing_marker "<table><tbody><tr>old</tr></table>" "<tr></tr>" []).
  right. reflexivity.
Defined.

(** *** Text and bytes *)




Example newlines_sample :
  Disk.universal_newlines
    ("a" +:+ String Disk.CR (String Disk.LF "b") +:+ String Disk.CR "c" +:+ Str.nl)
  = "a" +:+ Str.nl +:+ "b" +:+ Str.nl +:+ "c" +:+ Str.nl
  /\ Disk.write_newlines (String Disk.CR (String Disk.LF "")) ("a" +:+ Str.nl +:+ "b")
     = "a" +:+ String Disk.CR (String Disk.LF "b").
Proof. split; reflexivity. Qed.




(** On a document whose start marker precedes its end marker, and for a
    block without an end marker of its own, a second run finds the end
    marker where the first run left it: patching twice is patching once
    with the later block. *)
Lemma update_html_twice (content t1 t2 : string) (a j : nat) :
  Str.find start_tag content = Some a ->
  Str.find end_tag content = Some j ->
  (a + 7 <= j)%nat ->
  Str.contains end_tag t1 = false ->
  let new := new_content content t1 (a + 7) j in
  let j' := (a + 7 + 1 + (String.length t1 + 1 + 12))%nat in
  Str.find start_tag new = Some a
  /\ Str.find end_tag new = Some j'
  /\ new_content new t2 (a + 7) j' = new_content content t2 (a + 7) j.
Proof.
  intros Fa Fj Hij Ht new j'. apply StrFacts.contains_false in Ht.
  assert (La : String.length (Str.take (a + 7) content) = (a + 7)%nat).
  { apply StrFacts.length_take. pose proof (find_le _ _ _ Fa) as L. simpl in L. lia. }
  assert (Fj' : Str.find end_tag new = Some j').
  { unfold new, new_content, Str.nl. simpl String.append.
    rewrite find_sep; [| reflexivity | discriminate
                       | apply (find_take_None _ _ _ j); [discriminate | assumption | lia]].
    rewrite find_sep; [| reflexivity | discriminate | assumption].
    rewrite (drop_marker _ _ _ Fj). rewrite La. reflexivity. }
  split; [apply (find_keep_prefix start_tag content _ a Fa) |].
  split; [exact Fj' |].
  assert (E1 : Str.take (a + 7) new = Str.take (a + 7) content).
  { unfold new, new_content. apply StrFacts.take_take_app.
    pose proof (find_le _ _ _ Fa) as L. simpl in L. lia. }
  assert (E2 : Str.drop j' new = Str.drop j content).
  { unfold new, new_content. rewrite <- !StrFacts.app_assoc.
    replace j' with (String.length ((((Str.take (a + 7) content +:+ Str.nl) +:+ t1)
                                       +:+ Str.nl) +:+ indent)).
    - apply StrFacts.drop_app.
    - rewrite !StrFacts.length_app, La. simpl. unfold j'. lia. }
  unfold new_content. rewrite E1, E2. reflexivity.
Qed.

(** When the first end marker comes before the first start marker, the
    text between them is kept on both sides of the new block. *)
Example update_html_reversed_markers :
  update_html "X" (World "a</tbody>b<tbody>c" [])
  = (Ok tt,
     let new := "a</tbody>b<tbody>" +:+ Str.nl +:+ "X" +:+ Str.nl +:+ indent
                +:+ "</tbody>b<tbody>c" in
     World new [EvRead; EvWrite new; EvPrint MsgWrote]).
Proof. reflexivity. Qed.

(** C10: no uniqueness check.  Whenever each marker occurs at least once,
    however often, [update_html] does not raise; it splices at the first
    occurrence of the start marker and at the first occurrence of the end
    marker, both counted from the beginning of the document. *)
Theorem update_html_first_occurrences (content tbody_html : string) (tr : list event) :
  occurs start_tag content ->
  occurs end_tag content ->
  exists a j : nat,
    (content = Str.take a content +:+ start_tag +:+ Str.drop (a + 7) content
     /\ forall p r, content = p +:+ start_tag +:+ r -> (a <= String.length p)%nat)
    /\ (content = Str.take j content +:+ end_tag +:+ Str.drop (j + 8) content
        /\ forall p r, content = p +:+ end_tag +:+ r -> (j <= String.length p)%nat)
    /\ update_html tbody_html (World content tr)
       = (Ok tt,
          let new := (Str.take a content +:+ start_tag) +:+ Str.nl +:+ tbody_html
                     +:+ Str.nl +:+ indent +:+ Str.drop j content in
          World new (tr ++ [EvRead; EvWrite new; EvPrint MsgWrote])).
Proof.
  intros Hs He.
  apply StrFacts.find_occurs in Hs as [a Fa].
  apply StrFacts.find_occurs in He as [j Fj].
  exists a, j. repeat split.
  - apply (StrFacts.find_Some _ _ _ Fa).
  - intros p r. apply StrFacts.find_first. exact Fa.
  - apply (StrFacts.find_Some _ _ _ Fj).
  - intros p r. apply StrFacts.find_first. exact Fj.
  - rewrite update_html_run, Fa, Fj. cbv zeta. unfold new_content.
    rewrite (take_marker _ _ _ Fa : Str.take (a + 7) content = _). reflexivity.
Qed.

Lemma update_html_first_occurrences_witness :
  exists w : world,
    update_html "X" (World two_tables []) = (Ok tt, w)
    /\ html w = "<tbody>" +:+ Str.nl +:+ "X" +:+ Str.nl +:+ indent
                +:+ "</tbody><p>b</p><tbody>c</tbody>".
Proof.
  destruct (update_html_first_occurrences two_tables "X" []) as (a & j & _ & _ & H).
  - exists "", "a</tbody><p>b</p><tbody>c</tbody>". reflexivity.
  - exists "<tbody>a", "<p>b</p><tbody>c</tbody>". reflexivity.
  - eexists. split; [exact H |].
    rewrite update_html_run in H. vm_compute in H. injection H as H _.
    vm_compute. now rewrite <- H.
Defined.

(** ** Fetcher *)

Lemma percent_change_total (chg prev : spec_float) :
  exists r, percent_change chg prev = Ok r.
Proof.
  unfold percent_change, Float.div.
  destruct (Float.truthy prev); simpl; eauto.
Qed.

(** C5: the division is guarded.  With [prev == 0] the percent change is
    [0.0]; otherwise the division goes through and the percent change is
    [(last - prev) / prev * 100]; in neither case is anything raised. *)
Theorem percent_change_guarded (last prev : spec_float) :
  let chg := Float.sub last prev in
  (Float.eqb prev Float.zero = true -> percent_change chg prev = Ok Float.zero)
  /\ (Float.eqb prev Float.zero = false ->
      Float.div chg prev = Ok (SFdiv Float.prec Float.emax chg prev)
      /\ percent_change chg prev
         = Ok (Float.mul (SFdiv Float.prec Float.emax chg prev) Float.hundred))
  /\ (exists r, percent_change chg prev = Ok r).
Proof.
  intros chg. split; [|split].
  - unfold percent_change.
    destruct prev as [s|s| |s m e]; try destruct s; try discriminate; reflexivity.
  - unfold percent_change, Float.div.
    destruct prev as [s|s| |s m e]; [discriminate | | |]; now split.
  - apply percent_change_total.
Qed.

Lemma percent_change_guarded_witness :
  percent_change (Float.sub f_105_2 (S754_zero false)) (S754_zero false) = Ok Float.zero
  /\ percent_change (Float.sub f_105_2 Float.hundred) Float.hundred
     = Ok (S754_finite false 5854679515581648 (-50)).
Proof.
  split.
  - apply (percent_change_guarded f_105_2 (S754_zero false)). reflexivity.
  - destruct (percent_change_guarded f_105_2 Float.hundred) as (_ & H & _).
    destruct (H eq_refl) as [_ ->]. reflexivity.
Defined.

Lemma printed_nil (w : world) : printed w [] = w.
Proof. destruct w as [h t]. unfold printed; simpl. now rewrite List.app_nil_r. Qed.

Lemma printed_app (w : world) (m1 m2 : list message) :
  printed (printed w m1) m2 = printed w (m1 ++ m2).
Proof. unfold printed; simpl. now rewrite List.map_app, List.app_assoc. Qed.

Lemma print_run (m : message) (w : world) : print m w = (Ok tt, printed w [m]).
Proof. reflexivity. Qed.

(** One pass of the inner loop: it never raises, it only prints, and it
    either leaves the results alone or stores a quote under the ticker,
    the latter only when the ticker has two valid closing prices. *)
Lemma fetch_symbol_run (data : frame) (results : gmap string Quote.t)
    (name ticker : string) (w : world) :
  exists (results' : gmap string Quote.t) (msgs : list message),
    fetch_symbol data results (name, ticker) w = (Ok results', printed w msgs)
    /\ (results' = results
        \/ exists (q : Quote.t) (by_ticker : gmap string series) (column : series),
             data !! "Close" = Some by_ticker
             /\ by_ticker !! ticker = Some column
             /\ (2 <= length (dropna column))%nat
             /\ results' = <[ticker := q]> results).
Proof.
  unfold fetch_symbol, try_except, bind, lift, getitem, ret.
  destruct (data !! "Close") as [by_ticker|] eqn:E1;
    [| exists results, [MsgSkipExc ticker name KeyError]; split; [reflexivity | now left]].
  destruct (by_ticker !! ticker) as [column|] eqn:E2;
    [| exists results, [MsgSkipExc ticker name KeyError]; split; [reflexivity | now left]].
  destruct (length (dropna column) <? 2)%nat eqn:E3.
  { exists results, [MsgSkipShort ticker name]. split; [reflexivity | now left]. }
  apply Nat.ltb_ge in E3.
  unfold iloc_neg.
  destruct (rev (dropna column) !! (1 - 1)%nat) as [l|];
    [| exists results, [MsgSkipExc ticker name IndexError]; split; [reflexivity | now left]].
  destruct (rev (dropna column) !! (2 - 1)%nat) as [p|];
    [| exists results, [MsgSkipExc ticker name IndexError]; split; [reflexivity | now left]].
  destruct (percent_change_total (Float.sub l.2 p.2) p.2) as [pc ->].
  destruct (rev (map fst (dropna column)) !! (1 - 1)%nat) as [dt|];
    [| exists results, [MsgSkipExc ticker name IndexError]; split; [reflexivity | now left]].
  exists (<[ticker := Quote.Make l.2 (Float.sub l.2 p.2) pc dt]> results), [].
  split; [now rewrite printed_nil |].
  right. eauto 10.
Qed.

(** A loop whose body never raises, only prints and keeps [I], does the
    same as a whole. *)
Lemma for_each_inv {A S : Type} (I : S -> Prop) (body : S -> A -> M S)
    (l : list A) :
  (forall s x w, I s -> In x l ->
     exists s' msgs, body s x w = (Ok s', printed w msgs) /\ I s') ->
  forall s w, I s ->
    exists s' msgs, for_each l body s w = (Ok s', printed w msgs) /\ I s'.
Proof.
  induction l as [|x l IH]; intros Hb s w Hs.
  - exists s, []. now rewrite printed_nil.
  - destruct (Hb s x w Hs (or_introl eq_refl)) as (s1 & m1 & E1 & H1).
    destruct (IH (fun s x w Hs Hx => Hb s x w Hs (or_intror Hx)) s1 (printed w m1) H1)
      as (s2 & m2 & E2 & H2).
    exists s2, (m1 ++ m2). simpl. unfold bind. rewrite E1, E2, printed_app. easy.
Qed.

(** The fetch loops under an invariant that every pass keeps. *)
Lemma fetch_loops_inv (I : gmap string Quote.t -> Prop) (data : frame)
    (sections : list section) :
  (forall results q ticker by_ticker column,
     I results ->
     data !! "Close" = Some by_ticker -> by_ticker !! ticker = Some column ->
     (2 <= length (dropna column))%nat ->
     I (<[ticker := q]> results)) ->
  forall results w, I results ->
    exists results' msgs,
      for_each sections
        (fun results sec => for_each (snd sec) (fetch_symbol data) results) results w
      = (Ok results', printed w msgs) /\ I results'.
Proof.
  intros Hins. apply for_each_inv. intros results sec w Hr _.
  apply for_each_inv; [|exact Hr]. clear results w Hr.
  intros results [name ticker] w Hr _.
  destruct (fetch_symbol_run data results name ticker w) as (r' & msgs & E & H).
  exists r', msgs. split; [exact E |].
  destruct H as [-> | (q & bt & col & H1 & H2 & H3 & ->)]; [exact Hr | eauto].
Qed.

(** [fetch_data] only prints; it raises exactly when the download does. *)
Lemma fetch_data_run (I : gmap string Quote.t -> Prop) (sections : list section)
    (download : list string -> result frame) (w : world) :
  match download (all_tickers sections) with
  | Raise e =>
      fetch_data sections download w
      = (Raise e, printed w [MsgDownloading (length (all_tickers sections))])
  | Ok data =>
      (forall results q ticker by_ticker column,
         I results ->
         data !! "Close" = Some by_ticker -> by_ticker !! ticker = Some column ->
         (2 <= length (dropna column))%nat ->
         I (<[ticker := q]> results)) ->
      I ∅ ->
      exists results msgs,
        fetch_data sections download w = (Ok results, printed w msgs) /\ I results
  end.
Proof.
  unfold fetch_data, bind at 1. rewrite print_run. unfold bind, lift.
  destruct (download (all_tickers sections)) as [data|e]; [|reflexivity].
  intros Hins H0.
  destruct (fetch_loops_inv I data sections Hins ∅
              (printed w [MsgDownloading (length (all_tickers sections))]) H0)
    as (r & msgs & E & H).
  exists r, (MsgDownloading (length (all_tickers sections)) :: msgs).
  rewrite E, printed_app. easy.
Qed.

(** ** Renderer *)





(** ** Main *)

(** C7: when the fetch step comes back with no quote at all, [main]
    returns normally; after the fetch it prints the count and the notice
    that nothing was fetched, and that is all: the document is neither
    read nor written and keeps its contents. *)
Theorem main_no_results (sections : list section)
    (download : list string -> result frame) (w : world) :
  fst (fetch_data sections download w) = Ok ∅ ->
  exists (msgs : list message) (w' : world),
    main sections download w = (Ok tt, w')
    /\ html w' = html w
    /\ trace w' = trace w ++ map EvPrint msgs
    /\ exists before total,
         msgs = before ++ [MsgFetched 0 total; MsgNoData].
Proof.
  intros H.
  pose proof (fetch_data_run (fun _ => True) sections download w) as R.
  destruct (download (all_tickers sections)) as [data|e].
  - destruct R as (results & msgs & E & _); [easy | easy |].
    rewrite E in H. simpl in H. injection H as ->.
    exists (msgs ++ [MsgFetched 0 (list_sum (map (fun sec => length (snd sec)) sections));
                     MsgNoData]).
    eexists. unfold main, bind. rewrite E, print_run.
    destruct (decide ((∅ : gmap string Quote.t) = ∅)) as [_|N]; [|congruence].
    rewrite print_run, !printed_app, map_size_empty.
    split; [reflexivity |]. simpl. eauto.
  - rewrite R in H. discriminate.
Qed.

Lemma main_no_results_witness :
  exists (msgs : list message) (w' : world),
    main SECTIONS (fun _ => Ok ∅) (World page []) = (Ok tt, w')
    /\ html w' = page
    /\ trace w' = map EvPrint msgs.
Proof.
  destruct (main_no_results SECTIONS (fun _ => Ok ∅) (World page []))
    as (msgs & w' & E & H & T & _); [vm_compute; reflexivity |].
  exists msgs, w'. auto.
Defined.

(** ** Formatter *)

#[local] Arguments Fmt.digit : simpl never.
#[local] Arguments Fmt.scaled : simpl never.
#[local] Arguments Fmt.int_digits : simpl never.
#[local] Arguments is_digit : simpl never.

Section Chars.

Variable P : ascii -> bool.

Lemma all_chars_app (s t : string) :
  all_chars P (s +:+ t) = all_chars P s && all_chars P t.
Proof.
  induction s as [|c s IH]; simpl; [reflexivity |].
  now rewrite IH, andb_assoc.
Qed.

Lemma all_chars_of_list (l : list ascii) :
  all_chars P (string_of_list_ascii l) = forallb P l.
Proof. induction l as [|c l IH]; simpl; [reflexivity | now rewrite IH]. Qed.

Lemma all_chars_to_list (s : string) :
  forallb P (list_ascii_of_string s) = all_chars P s.
Proof. induction s as [|c s IH]; simpl; [reflexivity | now rewrite IH]. Qed.

Lemma all_chars_weaken (Q : ascii -> bool) (s : string) :
  (forall c, P c = true -> Q c = true) ->
  all_chars P s = true -> all_chars Q s = true.
Proof.
  intros H. induction s as [|c s IH]; simpl; [reflexivity |].
  rewrite !andb_true_iff. intros [Hc Hs]. auto.
Qed.

(** A character outside [P] does not occur in a text made of [P]. *)
Lemma count_char_absent (c : ascii) (s : string) :
  P c = false -> all_chars P s = true -> count_char c s = O.
Proof.
  intros Hc. induction s as [|a s IH]; simpl; [reflexivity |].
  rewrite andb_true_iff. intros [Ha Hs].
  destruct (decide (a = c)) as [->|]; [congruence | now rewrite IH].
Qed.

End Chars.

Lemma count_char_app (c : ascii) (s t : string) :
  count_char c (s +:+ t) = (count_char c s + count_char c t)%nat.
Proof. induction s as [|a s IH]; simpl; [reflexivity | rewrite IH; lia]. Qed.

Lemma length_of_list (l : list ascii) :
  String.length (string_of_list_ascii l) = length l.
Proof. induction l as [|c l IH]; simpl; [reflexivity | now rewrite IH]. Qed.

Lemma digit_is_digit (n : Z) : is_digit (Fmt.digit n) = true.
Proof.
  unfold Fmt.digit.
  assert (H : (Z.to_nat (n mod 10) < 10)%nat).
  { pose proof (Z.mod_pos_bound n 10 eq_refl). lia. }
  revert H. generalize (Z.to_nat (n mod 10)). intros k H.
  do 10 (destruct k as [|k]; [reflexivity |]). lia.
Qed.

Lemma frac_digits_digits (d : nat) (n : Z) : digits (Fmt.frac_digits d n).
Proof.
  unfold digits. revert n; induction d as [|d IH]; intros n; simpl; [reflexivity |].
  rewrite all_chars_app, IH. cbn [all_chars andb]. now rewrite digit_is_digit.
Qed.

Lemma frac_digits_length (d : nat) (n : Z) :
  String.length (Fmt.frac_digits d n) = d.
Proof.
  revert n; induction d as [|d IH]; intros n; simpl; [reflexivity |].
  rewrite StrFacts.length_app, IH. simpl. lia.
Qed.

Lemma uint_digits (u : Decimal.uint) :
  all_chars is_digit (NilEmpty.string_of_uint u) = true.
Proof. induction u; simpl; auto. Qed.

Lemma int_digits_digits (n : Z) : digits (Fmt.int_digits n).
Proof.
  unfold digits, Fmt.int_digits, NilZero.string_of_uint.
  destruct (N.to_uint (Z.to_N n)); try reflexivity; apply (uint_digits (_ u)).
Qed.

Lemma int_digits_nonempty (n : Z) : Fmt.int_digits n <> "".
Proof.
  unfold Fmt.int_digits, NilZero.string_of_uint.
  destruct (N.to_uint (Z.to_N n)); discriminate.
Qed.

Section Chunks.

Variable P : ascii -> bool.

Lemma forallb_rev (l : list ascii) : forallb P (rev l) = forallb P l.
Proof.
  induction l as [|c l IH]; [reflexivity |].
  simpl. rewrite List.forallb_app, IH. simpl. rewrite andb_true_r. apply andb_comm.
Qed.

(** [chunk3] cuts a non-empty list into groups of three and a last
    group of one to three. *)
Lemma chunk3_spec (n : nat) (l : list ascii) :
  (length l <= n)%nat -> l <> [] -> forallb P l = true ->
  exists (init : list (list ascii)) (lastg : list ascii),
    Fmt.chunk3 l = init ++ [lastg]
    /\ Forall (fun g => forallb P g = true /\ length g = 3%nat) init
    /\ forallb P lastg = true /\ (1 <= length lastg <= 3)%nat.
Proof.
  revert l; induction n as [|n IH]; intros l Hn Hne Hall.
  - destruct l; [congruence | simpl in Hn; lia].
  - destruct l as [|a [|b [|c [|d tl]]]]; [congruence | | | |].
    + exists [], [a]. simpl. repeat split; auto; lia.
    + exists [], [a; b]. simpl. repeat split; auto; lia.
    + exists [], [a; b; c]. simpl. repeat split; auto; lia.
    + simpl in Hall. rewrite !andb_true_iff in Hall.
      destruct Hall as (Ha & Hb & Hc & Hd & Htl).
      destruct (IH (d :: tl)) as (init & lastg & E & Hi & Hl & Hlen).
      * simpl in *; lia.
      * discriminate.
      * simpl. now rewrite Hd, Htl.
      * exists ([a; b; c] :: init), lastg.
        change (Fmt.chunk3 (a :: b :: c :: d :: tl))
          with ([a; b; c] :: Fmt.chunk3 (d :: tl)).
        rewrite E. repeat split; auto; try lia.
        constructor; [|exact Hi]. simpl. now rewrite Ha, Hb, Hc.
Qed.

End Chunks.

Lemma group_thousands_grouped (s : string) :
  digits s -> s <> "" -> grouped (Fmt.group_thousands s).
Proof.
  intros Hd Hne. unfold Fmt.group_thousands, Fmt.groups.
  set (l := rev (list_ascii_of_string s)).
  destruct (chunk3_spec is_digit (length l) l) as (init & lastg & E & Hi & Hl & Hlen).
  - lia.
  - unfold l. destruct s as [|c s]; [congruence |]. simpl.
    destruct (rev (list_ascii_of_string s)); discriminate.
  - unfold l. now rewrite forallb_rev, all_chars_to_list.
  - rewrite E, List.map_app, List.rev_app_distr. simpl.
    eexists _, _. split; [reflexivity |]. split; [|split].
    + unfold digits. now rewrite all_chars_of_list, forallb_rev.
    + now rewrite length_of_list, List.length_rev.
    + apply List.Forall_rev, List.Forall_map.
      eapply List.Forall_impl; [|exact Hi]. intros g [Hg Hlg]. split.
      * unfold digits. now rewrite all_chars_of_list, forallb_rev.
      * now rewrite length_of_list, List.length_rev.
Qed.

Lemma digits_numeric (s : string) : digits s -> all_chars numeric s = true.
Proof.
  apply all_chars_weaken. intros c H. unfold numeric. now rewrite H.
Qed.

Lemma grouped_numeric (s : string) : grouped s -> all_chars numeric s = true.
Proof.
  intros (g & gs & -> & Hg & _ & Hgs). revert g Hg.
  induction Hgs as [|x gs [Hx _] _ IH]; intros g Hg.
  - simpl. now apply digits_numeric.
  - change (String.concat "," (g :: x :: gs))
      with (g +:+ "," +:+ String.concat "," (x :: gs)).
    rewrite !all_chars_app, (digits_numeric g Hg), (IH x Hx). reflexivity.
Qed.

(** Grouping adds commas and nothing else: the groups, read one after the
    other, are the digits that were grouped. *)
Lemma chunk3_concat (n : nat) (l : list ascii) :
  (length l <= n)%nat -> List.concat (Fmt.chunk3 l) = l.
Proof.
  revert l; induction n as [|n IH]; intros l Hn.
  - destruct l; [reflexivity | simpl in Hn; lia].
  - destruct l as [|a [|b [|c [|d tl]]]]; try reflexivity.
    change (Fmt.chunk3 (a :: b :: c :: d :: tl))
      with ([a; b; c] :: Fmt.chunk3 (d :: tl)).
    cbn [List.concat app]. rewrite IH; [reflexivity | simpl in *; lia].
Qed.

Lemma string_of_list_app (l1 l2 : list ascii) :
  string_of_list_ascii (l1 ++ l2)
  = string_of_list_ascii l1 +:+ string_of_list_ascii l2.
Proof. induction l1 as [|c l1 IH]; simpl; [reflexivity | now rewrite IH]. Qed.

Lemma concat_empty_sep (x : string) (xs : list string) :
  String.concat "" (x :: xs) = x +:+ String.concat "" xs.
Proof. destruct xs; simpl; [now rewrite StrFacts.app_nil_r | reflexivity]. Qed.

Lemma concat_empty_sep_app (xs ys : list string) :
  String.concat "" (xs ++ ys) = String.concat "" xs +:+ String.concat "" ys.
Proof.
  induction xs as [|x xs IH]; [reflexivity |].
  change ((x :: xs) ++ ys) with (x :: (xs ++ ys)).
  now rewrite !concat_empty_sep, IH, StrFacts.app_assoc.
Qed.

Lemma groups_digits (s : string) : String.concat "" (Fmt.groups s) = s.
Proof.
  unfold Fmt.groups.
  assert (H : forall gs : list (list ascii),
             String.concat "" (rev (map (fun g => string_of_list_ascii (rev g)) gs))
             = string_of_list_ascii (rev (List.concat gs))).
  { induction gs as [|g gs IH]; [reflexivity |].
    cbn [map rev List.concat].
    rewrite concat_empty_sep_app, IH, List.rev_app_distr, string_of_list_app.
    reflexivity. }
  rewrite H, (chunk3_concat _ _ (Nat.le_refl _)), List.rev_involutive.
  apply string_of_list_ascii_of_string.
Qed.

Lemma unsigned_shape (grouping : bool) (d : nat) (n : Z) :
  exists ip fp : string,
    Fmt.unsigned grouping (S d) n = ip +:+ "." +:+ fp
    /\ (if grouping then grouped ip else digits ip /\ ip <> "")
    /\ digits fp /\ String.length fp = S d.
Proof.
  unfold Fmt.unsigned.
  exists (if grouping then Fmt.group_thousands (Fmt.int_digits (n / 10 ^ Z.of_nat (S d)))
          else Fmt.int_digits (n / 10 ^ Z.of_nat (S d))),
         (Fmt.frac_digits (S d) n).
  split; [reflexivity |]. split; [|split].
  - destruct grouping.
    + apply group_thousands_grouped;
        [apply int_digits_digits | apply int_digits_nonempty].
    + split; [apply int_digits_digits | apply int_digits_nonempty].
  - apply frac_digits_digits.
  - apply frac_digits_length.
Qed.

Lemma fixed_shape (grouping : bool) (d : nat) (v : spec_float) :
  Float.is_finite v = true -> fixed_point grouping (S d) (Fmt.fixed grouping (S d) v).
Proof.
  intros Hf. unfold fixed_point.
  destruct v as [s|s| |s m e]; try discriminate; unfold Fmt.fixed.
  - destruct (unsigned_shape grouping d 0) as (ip & fp & -> & H).
    exists (Fmt.sign_str s), ip, fp. split; [reflexivity |].
    split; [destruct s; auto | exact H].
  - destruct (unsigned_shape grouping d (Fmt.scaled (S d) m e)) as (ip & fp & -> & H).
    exists (Fmt.sign_str s), ip, fp. split; [reflexivity |].
    split; [destruct s; auto | exact H].
Qed.

(** *** Rounding

    [Fmt.scaled d m e] is the integer nearest to [m * 2^e * 10^d]; when
    two integers are equally near it is the even one. *)

Lemma scaled_exact (d : nat) (m : positive) (e : Z) :
  0 <= e -> Fmt.scaled d m e = Z.pos m * 10 ^ Z.of_nat d * 2 ^ e.
Proof.
  intros H. unfold Fmt.scaled. now destruct (Z.leb_spec 0 e); [|lia].
Qed.

Lemma scaled_nearest (d : nat) (m : positive) (e : Z) :
  e < 0 ->
  2 * Z.abs (Fmt.scaled d m e * 2 ^ (- e) - Z.pos m * 10 ^ Z.of_nat d) <= 2 ^ (- e)
  /\ (2 * Z.abs (Fmt.scaled d m e * 2 ^ (- e) - Z.pos m * 10 ^ Z.of_nat d) = 2 ^ (- e) ->
      Z.even (Fmt.scaled d m e) = true).
Proof.
  intros H. unfold Fmt.scaled. destruct (Z.leb_spec 0 e); [lia |].
  set (num := Z.pos m * 10 ^ Z.of_nat d). set (den := 2 ^ (- e)).
  assert (Hden : 0 < den) by (apply Z.pow_pos_nonneg; lia).
  pose proof (Z.div_mod num den ltac:(lia)) as E.
  pose proof (Z.mod_pos_bound num den Hden) as B.
  set (q := num / den) in *. set (r := num mod den) in *.
  assert (Q : forall k, k * den - num = (k - q) * den - r) by (intros; lia).
  destruct (Z.compare_spec (2 * r) den) as [C|C|C].
  - destruct (Z.even q) eqn:Ev.
    + rewrite Q. replace ((q - q) * den - r) with (- r) by lia. split; [lia | auto].
    + rewrite Q. replace ((q + 1 - q) * den - r) with (den - r) by lia.
      split; [lia |]. intros _. rewrite Z.even_add, Ev. reflexivity.
  - rewrite Q. replace ((q - q) * den - r) with (- r) by lia. split; lia.
  - rewrite Q. replace ((q + 1 - q) * den - r) with (den - r) by lia. split; lia.
Qed.

(** *** Magnitude tiers *)

Lemma SFcompare_pos_antisym (m1 m2 : positive) (e1 e2 : Z) :
  SFcompare (S754_finite false m2 e2) (S754_finite false m1 e1)
  = option_map CompOpp (SFcompare (S754_finite false m1 e1) (S754_finite false m2 e2)).
Proof.
  cbn [SFcompare option_map]. rewrite (Z.compare_antisym e1 e2).
  destruct (e1 ?= e2); cbn [CompOpp]; try reflexivity.
  now rewrite Pos.compare_cont_antisym.
Qed.

(** Below a positive bound means not at or above it, nor at or above a
    bound with a larger exponent. *)
Lemma below_bound (r : spec_float) (m1 m2 : positive) (e1 e2 : Z) :
  e1 < e2 ->
  let y1 := S754_finite false m1 e1 in
  let y2 := S754_finite false m2 e2 in
  (Float.ltb (Float.abs r) y2 = true -> Float.geb (Float.abs r) y2 = false)
  /\ (Float.ltb (Float.abs r) y1 = true ->
      Float.geb (Float.abs r) y1 = false /\ Float.geb (Float.abs r) y2 = false).
Proof.
  intros He y1 y2. unfold Float.ltb, Float.geb, SFltb, SFleb, y1, y2.
  destruct r as [s|s| |s m e]; cbn [Float.abs SFabs];
    try (cbn [SFcompare]; split; [discriminate || reflexivity | discriminate || (split; reflexivity)]).
  rewrite (SFcompare_pos_antisym m m2 e e2), (SFcompare_pos_antisym m m1 e e1).
  split.
  -
 destruct (SFcompare (S754_finite false m e) (S754_finite false m2 e2)) as [[]|];
      try discriminate; reflexivity.
  - intros H. split.
    + destruct (SFcompare (S754_finite false m e) (S754_finite false m1 e1)) as [[]|];
        try discriminate; reflexivity.
    + cbn [SFcompare option_map] in *.
      destruct (Z.compare_spec e e1) as [E| |]; try discriminate;
        destruct (Z.compare_spec e e2); try lia; reflexivity.
Qed.

Lemma below_ten (r : spec_float) :
  Float.ltb (Float.abs r) Float.ten = true -> Float.geb (Float.abs r) Float.ten = false.
Proof. apply (below_bound r 4503599627370496 5629499534213120 (-52) (-49)). reflexivity. Qed.

Lemma below_one (r : spec_float) :
  Float.ltb (Float.abs r) Float.one = true ->
  Float.geb (Float.abs r) Float.one = false /\ Float.geb (Float.abs r) Float.ten = false.
Proof. apply (below_bound r 4503599627370496 5629499534213120 (-52) (-49)). reflexivity. Qed.

(** The format that [fmt_price] and [fmt_change] pick for a value whose
    magnitude is [r]: grouping and two decimals from ten on, three
    decimals from one on, four decimals below. *)
Lemma tier_cases (r : spec_float) (A : Type) (x2 x3 x4 : A) :
  let pick := if Float.geb (Float.abs r) Float.ten then x2
              else if Float.geb (Float.abs r) Float.one then x3 else x4 in
  (Float.geb (Float.abs r) Float.ten = true -> pick = x2)
  /\ (Float.geb (Float.abs r) Float.one = true ->
      Float.ltb (Float.abs r) Float.ten = true -> pick = x3)
  /\ (Float.ltb (Float.abs r) Float.one = true -> pick = x4).
Proof.
  intros pick. unfold pick. split; [|split].
  - now intros ->.
  - intros H1 H2. now rewrite (below_ten r H2), H1.
  - intros H. destruct (below_one r H) as [-> ->]. reflexivity.
Qed.

Lemma fmt_price_form (v : spec_float) :
  fmt_price v
  = if Float.geb (Float.abs v) Float.ten then Fmt.fixed true 2 v
    else if Float.geb (Float.abs v) Float.one then Fmt.fixed false 3 v
    else Fmt.fixed false 4 v.
Proof. reflexivity. Qed.

Lemma fmt_change_form (v r : spec_float) :
  fmt_change v r
  = plus_sign v +:+
    (if Float.geb (Float.abs r) Float.ten then Fmt.fixed true 2 v
     else if Float.geb (Float.abs r) Float.one then Fmt.fixed false 3 v
     else Fmt.fixed false 4 v).
Proof.
  unfold fmt_change, plus_sign.
  destruct (Float.geb (Float.abs r) Float.ten); [reflexivity |].
  destruct (Float.geb (Float.abs r) Float.one); reflexivity.
Qed.

Lemma samples_nearest :
  nearest 12345 10 f_1234_5 = true /\ nearest 5123 10000 f_0_5123 = true
  /\ nearest 314159 100000 f_3_14159 = true /\ nearest 52 10 f_5_2 = true
  /\ nearest 1052 10 f_105_2 = true /\ nearest 5 10 f_0_5 = true
  /\ nearest 1 1 Float.one = true /\ nearest 10 1 Float.ten = true
  /\ nearest 100 1 Float.hundred = true.
Proof. vm_compute. repeat split. Qed.

(** *** Sample outputs *)

Example fmt_price_samples :
  fmt_price f_1234567_891 = "1,234,567.89"
  /\ fmt_price f_1e22 = "10,000,000,000,000,000,000,000.00"
  /\ fmt_price f_9_9996 = "10.000"
  /\ fmt_price f_0_99996 = "1.0000"
  /\ fmt_price f_0_125 = "0.1250"
  /\ Fmt.fixed true 2 f_0_125 = "0.12"
  /\ fmt_price f_minus_1e_5 = "-0.0000"
  /\ fmt_price (S754_infinity false) = "inf"
  /\ fmt_price S754_nan = "nan".
Proof. vm_compute. repeat split. Qed.

Example fmt_change_samples :
  fmt_change (SFopp f_1234567_891) f_1234567_891 = "-1,234,567.89"
  /\ fmt_change (S754_zero true) f_3_14159 = "+-0.000"
  /\ fmt_change (S754_infinity true) f_5_2 = "-inf"
  /\ fmt_change S754_nan f_5_2 = "nan".
Proof. vm_compute. repeat split. Qed.

(** From closing prices 0.5 and 0.5123 to the table row. *)
Example row_sample :
  exists results w,
    fetch_data [("FX", [("AUD/USD", "AUDUSD=X"); ("XAU/USD", "GC=F")])]
      (fun _ => Ok sample_frame) (World page []) = (Ok results, w)
    /\ trace w = [EvPrint (MsgDownloading 2); EvPrint (MsgSkipShort "GC=F" "XAU/USD")]
    /\ tbody_lines [("FX", [("AUD/USD", "AUDUSD=X"); ("XAU/USD", "GC=F")])] results
       = [ "              <!-- ── FX ── -->";
           "              <tr class=" +:+ dq +:+ "section-header" +:+ dq
           +:+ "><td colspan=" +:+ dq +:+ "5" +:+ dq +:+ ">FX</td></tr>";
           "              <tr><td>AUD/USD</td><td>0.5123</td><td class=" +:+ dq
           +:+ "chg-pos" +:+ dq +:+ ">+0.0123</td><td class=" +:+ dq
           +:+ "chg-pos" +:+ dq +:+ ">+2.46%</td><td>04/11</td></tr>" ].
Proof. eexists _, _. split; [vm_compute; reflexivity |]. vm_compute. repeat split. Qed.

(** C2: [fmt_price] on a finite value is an optional minus sign, an
    integer part, a point and decimals: two decimals and thousands
    separators when the magnitude is at least ten, three decimals from one
    up to ten, four decimals below one; and the three sample prices come
    out as [1,234.50], [0.5123] and [3.142]. *)
Theorem fmt_price_tiers (v : spec_float) :
  (fmt_price f_1234_5 = "1,234.50"
   /\ fmt_price f_0_5123 = "0.5123"
   /\ fmt_price f_3_14159 = "3.142")
  /\ (Float.is_finite v = true ->
      (Float.geb (Float.abs v) Float.ten = true -> fixed_point true 2 (fmt_price v))
      /\ (Float.geb (Float.abs v) Float.one = true ->
          Float.ltb (Float.abs v) Float.ten = true ->
          fixed_point false 3 (fmt_price v))
      /\ (Float.ltb (Float.abs v) Float.one = true ->
          fixed_point false 4 (fmt_price v))).
Proof.
  split; [vm_compute; repeat split |].
  intros Hf. rewrite fmt_price_form.
  destruct (tier_cases v string (Fmt.fixed true 2 v) (Fmt.fixed false 3 v)
              (Fmt.fixed false 4 v)) as (H2 & H3 & H4).
  split; [|split].
  - intros H. rewrite (H2 H). now apply fixed_shape.
  - intros H H'. rewrite (H3 H H'). now apply fixed_shape.
  - intros H. rewrite (H4 H). now apply fixed_shape.
Qed.

Lemma fmt_price_tiers_witness :
  fixed_point true 2 (fmt_price f_1234_5)
  /\ fixed_point false 3 (fmt_price f_3_14159)
  /\ fixed_point false 4 (fmt_price f_0_5123).
Proof.
  split; [|split].
  - destruct (fmt_price_tiers f_1234_5) as (_ & H).
    destruct (H eq_refl) as (H2 & _ & _). apply H2. reflexivity.
  - destruct (fmt_price_tiers f_3_14159) as (_ & H).
    destruct (H eq_refl) as (_ & H3 & _). apply H3; reflexivity.
  - destruct (fmt_price_tiers f_0_5123) as (_ & H).
    destruct (H eq_refl) as (_ & _ & H4). apply H4. reflexivity.
Defined.

(** C3: the decimal tier of [fmt_change] comes from the magnitude of the
    reference: whatever the finite change [v] is, the text after the plus
    sign has two decimals and separators when [|r| >= 10], three decimals
    when [1 <= |r| < 10] and four when [|r| < 1].  A row formats the
    absolute change against the last price and the percent change
    against 100, so a percent change of 5.2 reads [+5.20%]. *)
Theorem fmt_change_reference_tier (v r : spec_float) :
  (fmt_change f_5_2 Float.hundred +:+ "%" = "+5.20%"
   /\ fmt_change f_1234_5 f_0_5 = "+1234.5000"
   /\ fmt_change f_0_5 f_1234_5 = "+0.50")
  /\ (forall (name : string) (d : Quote.t),
        row name d
        = "              <tr><td>" +:+ name +:+ "</td><td>"
          +:+ fmt_price (Quote.last d)
          +:+ "</td><td class=" +:+ dq +:+ css_class (Quote.chg d) +:+ dq +:+ ">"
          +:+ fmt_change (Quote.chg d) (Quote.last d)
          +:+ "</td><td class=" +:+ dq +:+ css_class (Quote.chg d) +:+ dq +:+ ">"
          +:+ fmt_change (Quote.chg_pct d) Float.hundred
          +:+ "%</td><td>" +:+ fmt_time (Quote.time d) +:+ "</td></tr>")
  /\ (Float.is_finite v = true ->
      (Float.geb (Float.abs r) Float.ten = true ->
       exists body, fmt_change v r = plus_sign v +:+ body /\ fixed_point true 2 body)
      /\ (Float.geb (Float.abs r) Float.one = true ->
          Float.ltb (Float.abs r) Float.ten = true ->
          exists body, fmt_change v r = plus_sign v +:+ body /\ fixed_point false 3 body)
      /\ (Float.ltb (Float.abs r) Float.one = true ->
          exists body, fmt_change v r = plus_sign v +:+ body /\ fixed_point false 4 body)).
Proof.
  split; [vm_compute; repeat split |].
  split.
  { intros name d. unfold row. cbv zeta.
    repeat (rewrite ?StrFacts.app_assoc; cbn [String.append]). reflexivity. }
  intros Hf. rewrite fmt_change_form.
  destruct (tier_cases r string (Fmt.fixed true 2 v) (Fmt.fixed false 3 v)
              (Fmt.fixed false 4 v)) as (H2 & H3 & H4).
  split; [|split].
  - intros H. rewrite (H2 H). eexists. split; [reflexivity | now apply fixed_shape].
  - intros H H'. rewrite (H3 H H'). eexists. split; [reflexivity | now apply fixed_shape].
  - intros H. rewrite (H4 H). eexists. split; [reflexivity | now apply fixed_shape].
Qed.

Lemma fmt_change_reference_tier_witness :
  exists body : string,
    fmt_change f_1234_5 f_0_5 = plus_sign f_1234_5 +:+ body
    /\ fixed_point false 4 body.
Proof.
  destruct (fmt_change_reference_tier f_1234_5 f_0_5) as (_ & _ & H).
  destruct (H eq_refl) as (_ & _ & H4). apply H4. reflexivity.
Defined.

(** *** Signs *)

Lemma unsigned_numeric (grouping : bool) (d : nat) (n : Z) :
  all_chars numeric (Fmt.unsigned grouping d n) = true.
Proof.
  unfold Fmt.unsigned. rewrite !all_chars_app.
  rewrite (digits_numeric _ (frac_digits_digits d n)), andb_true_r.
  apply andb_true_iff. split; [|now destruct d].
  destruct grouping.
  - apply grouped_numeric, group_thousands_grouped;
      [apply int_digits_digits | apply int_digits_nonempty].
  - apply digits_numeric, int_digits_digits.
Qed.

(** A formatted float holds no plus sign, and one minus sign, in front,
    exactly when its sign bit is set. *)
Lemma fixed_signs (grouping : bool) (d : nat) (v : spec_float) :
  count_char "+" (Fmt.fixed grouping d v) = O
  /\ count_char "-" (Fmt.fixed grouping d v) = (if sign_bit v then 1 else 0)%nat
  /\ (sign_bit v = true -> exists rest, Fmt.fixed grouping d v = String "-" rest).
Proof.
  assert (U : forall n c, numeric c = false ->
                          count_char c (Fmt.unsigned grouping d n) = O).
  { intros n c Hc. apply (count_char_absent numeric); [exact Hc | apply unsigned_numeric]. }
  destruct v as [s|s| |s m e]; unfold Fmt.fixed; cbn [sign_bit].
  - rewrite !count_char_app, !U by reflexivity.
    destruct s; repeat split; try reflexivity; try discriminate. intros _. simpl. eauto.
  - destruct s; repeat split; try reflexivity; try discriminate. intros _. simpl. eauto.
  - repeat split; try reflexivity; discriminate.
  - rewrite !count_char_app, !U by reflexivity.
    destruct s; repeat split; try reflexivity; try discriminate. intros _. simpl. eauto.
Qed.

Lemma fmt_change_fixed (v r : spec_float) :
  exists (grouping : bool) (d : nat),
    fmt_change v r = plus_sign v +:+ Fmt.fixed grouping d v.
Proof.
  rewrite fmt_change_form.
  destruct (Float.geb (Float.abs r) Float.ten); [eauto |].
  destruct (Float.geb (Float.abs r) Float.one); eauto.
Qed.

(** C8: for [v >= 0] the text of [fmt_change] starts with a plus sign and
    holds no other plus sign; for [v < 0] it starts with the minus sign
    of the number, holds no other minus sign and no plus sign. *)
Theorem fmt_change_sign (v r : spec_float) :
  (Float.geb v Float.zero = true ->
   (exists rest, fmt_change v r = String "+" rest)
   /\ count_char "+" (fmt_change v r) = 1%nat)
  /\ (Float.ltb v Float.zero = true ->
      (exists rest, fmt_change v r = String "-" rest)
      /\ count_char "-" (fmt_change v r) = 1%nat
      /\ count_char "+" (fmt_change v r) = O).
Proof.
  destruct (fmt_change_fixed v r) as (g & d & ->).
  destruct (fixed_signs g d v) as (Hp & Hm & Hh).
  unfold plus_sign. split.
  - intros ->. split; [simpl; eauto |].
    rewrite count_char_app, Hp. reflexivity.
  - intros Hlt.
    assert (sign_bit v = true /\ Float.geb v Float.zero = false) as [Hs ->].
    { destruct v as [s|s| |s m e]; try destruct s; try discriminate; now split. }
    rewrite Hs in Hm. simpl String.append. auto.
Qed.

Lemma fmt_change_sign_witness :
  (exists rest, fmt_change f_5_2 Float.hundred = String "+" rest)
  /\ (exists rest, fmt_change (SFopp f_5_2) Float.hundred = String "-" rest).
Proof.
  split.
  - destruct (fmt_change_sign f_5_2 Float.hundred) as ((H & _) & _);
      [reflexivity | exact H].
  - destruct (fmt_change_sign (SFopp f_5_2) Float.hundred) as (_ & (H & _));
      [reflexivity | exact H].
Defined.

(** C9: a change of exactly zero, of either sign bit, counts as
    non-negative: [fmt_change] puts the plus sign in front of it whatever
    the reference, and its row carries the class [chg-pos] in both change
    cells. *)
Theorem zero_change_is_positive (s : bool) (r : spec_float) :
  (exists rest, fmt_change (S754_zero s) r = String "+" rest)
  /\ css_class (S754_zero s) = "chg-pos"
  /\ css_class (S754_zero s) <> "chg-neg"
  /\ (forall (name : string) (last pct : spec_float) (t : timestamp),
        row name (Quote.Make last (S754_zero s) pct t)
        = "              <tr><td>" +:+ name +:+ "</td><td>" +:+ fmt_price last
          +:+ "</td><td class=" +:+ dq +:+ "chg-pos" +:+ dq +:+ ">"
          +:+ fmt_change (S754_zero s) last
          +:+ "</td><td class=" +:+ dq +:+ "chg-pos" +:+ dq +:+ ">"
          +:+ fmt_change pct Float.hundred
          +:+ "%</td><td>" +:+ fmt_time t +:+ "</td></tr>").
Proof.
  assert (C : css_class (S754_zero s) = "chg-pos") by now destruct s.
  split; [|split; [exact C | split; [now rewrite C |]]].
  - destruct (fmt_change_fixed (S754_zero s) r) as (g & d & ->).
    assert (plus_sign (S754_zero s) = "+") as -> by now destruct s.
    simpl. eauto.
  - intros name last pct t. unfold row. cbv zeta. cbn [Quote.chg Quote.last Quote.chg_pct Quote.time].
    rewrite C. repeat (rewrite ?StrFacts.app_assoc; cbn [String.append]). reflexivity.
Qed.


(** * Further properties *)

(** ** The fetch loop *)

Lemma all_tickers_instruments (sections : list section) :
  all_tickers sections = map snd (instruments sections).
Proof.
  unfold all_tickers, instruments.
  induction sections as [|sec l IH]; [reflexivity |].
  simpl. now rewrite IH, List.map_app.
Qed.

(** One pass of the loop, exactly. *)
Lemma fetch_symbol_exact (data : frame) (results : gmap string Quote.t)
    (ins : instrument) (w : world) :
  fetch_symbol data results ins w
  = (Ok (store data results ins), printed w (skip_message data ins)).
Proof.
  destruct ins as [name ticker].
  unfold fetch_symbol, store, quote_of, skip_message, try_except, bind, lift,
    getitem, ret. cbn [snd].
  destruct (data !! "Close") as [by_ticker|]; [|reflexivity].
  destruct (by_ticker !! ticker) as [column|]; [|reflexivity].
  destruct (length (dropna column) <? 2)%nat eqn:E.
  - apply Nat.ltb_lt in E. rewrite <- List.length_rev in E.
    destruct (rev (dropna column)) as [|l [|p r]]; [reflexivity | reflexivity |].
    simpl in E; lia.
  - apply Nat.ltb_ge in E. unfold iloc_neg. rewrite <- List.map_rev.
    rewrite <- List.length_rev in E.
    destruct (rev (dropna column)) as [|l [|p r]]; [simpl in E; lia | simpl in E; lia |].
    cbn [lookup list_lookup Nat.sub map].
    unfold percent_change, Float.div.
    destruct (Float.truthy p.2); cbn [rbind]; now rewrite printed_nil.
Qed.

(** A loop whose passes are known exactly. *)
Lemma for_each_exact {A S : Type} (body : S -> A -> M S) (f : S -> A -> S)
    (g : A -> list message) (l : list A) :
  (forall s x w, body s x w = (Ok (f s x), printed w (g x))) ->
  forall s w, for_each l body s w = (Ok (foldl f s l), printed w (flat_map g l)).
Proof.
  intros H. induction l as [|x l IH]; intros s w.
  - simpl. now rewrite printed_nil.
  - simpl. unfold bind. rewrite H, IH, printed_app. reflexivity.
Qed.

Lemma foldl_flat_map {A B S : Type} (f : S -> B -> S) (h : A -> list B)
    (l : list A) (s : S) :
  foldl (fun s x => foldl f s (h x)) s l = foldl f s (flat_map h l).
Proof.
  revert s; induction l as [|x l IH]; intros s; [reflexivity |].
  simpl. now rewrite IH, foldl_app.
Qed.

Lemma flat_map_flat_map {A B C : Type} (g : B -> list C) (h : A -> list B)
    (l : list A) :
  flat_map (fun x => flat_map g (h x)) l = flat_map g (flat_map h l).
Proof.
  induction l as [|x l IH]; [reflexivity |].
  simpl. now rewrite IH, List.flat_map_app.
Qed.

(** What [fetch_data] returns and prints once the download has come back. *)
Lemma fetch_data_exact (sections : list section)
    (download : list string -> result frame) (data : frame) (w : world) :
  download (all_tickers sections) = Ok data ->
  fetch_data sections download w
  = (Ok (foldl (store data) ∅ (instruments sections)),
     printed w (MsgDownloading (length (all_tickers sections))
                  :: flat_map (skip_message data) (instruments sections))).
Proof.
  intros Hd. unfold fetch_data, bind at 1. rewrite print_run.
  unfold bind, lift. rewrite Hd. cbv beta iota.
  rewrite (for_each_exact
             (fun (results : gmap string Quote.t) (sec : section) =>
                for_each (snd sec) (fetch_symbol data) results)
             (fun (results : gmap string Quote.t) (sec : section) =>
                foldl (store data) results (snd sec))
             (fun sec : section => flat_map (skip_message data) (snd sec))).
  - rewrite printed_app, foldl_flat_map, flat_map_flat_map. reflexivity.
  - intros s sec w'. apply for_each_exact. intros. apply fetch_symbol_exact.
Qed.

Lemma lookup_store (data : frame) (results : gmap string Quote.t)
    (ins : instrument) (ticker : string) :
  store data results ins !! ticker
  = if decide (snd ins = ticker)
    then match quote_of data ticker with
         | Some q => Some q
         | None => results !! ticker
         end
    else results !! ticker.
Proof.
  unfold store. destruct (decide (ins.2 = ticker)) as [->|Hne].
  - destruct (quote_of data ticker); [apply lookup_insert_eq | reflexivity].
  - destruct (quote_of data ins.2); [now apply lookup_insert_ne | reflexivity].
Qed.

Lemma lookup_stored (data : frame) (ts : list instrument)
    (results : gmap string Quote.t) (ticker : string) :
  foldl (store data) results ts !! ticker
  = if decide (ticker ∈ map snd ts)
    then match quote_of data ticker with
         | Some q => Some q
         | None => results !! ticker
         end
    else results !! ticker.
Proof.
  revert results; induction ts as [|ins ts IH]; intros results.
  - simpl. destruct (decide (ticker ∈ [])) as [H|_]; [|reflexivity].
    now apply elem_of_nil in H.
  - simpl foldl. rewrite IH, lookup_store. cbn [map].
    destruct (decide (ins.2 = ticker)) as [E|Hne].
    + destruct (decide (ticker ∈ ins.2 :: map snd ts)) as [_|N];
        [|exfalso; apply N; rewrite E; constructor].
      destruct (quote_of data ticker); now destruct (decide (ticker ∈ map snd ts)).
    + destruct (decide (ticker ∈ map snd ts)) as [Hin|Hnin];
        destruct (decide (ticker ∈ ins.2 :: map snd ts)) as [Hin'|Hnin'];
        try reflexivity.
      * exfalso. apply Hnin'. now constructor.
      * exfalso. apply elem_of_cons in Hin' as [->|]; [congruence | contradiction].
Qed.

Lemma quote_of_latest (data : frame) (ticker : string) (q : Quote.t) :
  quote_of data ticker = Some q <-> latest data ticker q.
Proof.
  unfold quote_of, latest. split.
  - destruct (data !! "Close") as [by_ticker|] eqn:E1; [|discriminate].
    destruct (by_ticker !! ticker) as [column|] eqn:E2; [|discriminate].
    destruct (rev (dropna column)) as [|l [|p r]] eqn:E; try discriminate.
    intros [= <-]. exists by_ticker, column, (rev r), p, l.
    repeat split; try reflexivity; try assumption.
    apply (f_equal (@rev _)) in E. rewrite List.rev_involutive in E.
    rewrite E. simpl. now rewrite <- List.app_assoc.
  - intros (by_ticker & column & older & p & l & -> & -> & E & H1 & H2 & H3 & H4).
    rewrite E, List.rev_app_distr. simpl.
    destruct q as [ql qc qp qt]. simpl in *. subst. reflexivity.
Qed.

(** X1: once the download has come back, [fetch_data] returns normally
    whatever the table holds; it only prints, and it holds a quote for a
    ticker exactly when the ticker is in the catalog and its column has
    two valid closing prices, the quote being computed from the last two. *)
Theorem fetch_data_quotes (sections : list section)
    (download : list string -> result frame) (data : frame) (w : world) :
  download (all_tickers sections) = Ok data ->
  exists (results : gmap string Quote.t) (msgs : list message),
    fetch_data sections download w = (Ok results, printed w msgs)
    /\ forall (ticker : string) (q : Quote.t),
         results !! ticker = Some q
         <-> ticker ∈ all_tickers sections /\ latest data ticker q.
Proof.
  intros Hd. eexists _, _. split; [apply (fetch_data_exact _ _ _ _ Hd) |].
  intros ticker q. rewrite lookup_stored, <- all_tickers_instruments, lookup_empty.
  rewrite <- quote_of_latest.
  destruct (decide (ticker ∈ all_tickers sections)) as [Hin|Hnin].
  - destruct (quote_of data ticker); split; try tauto; try discriminate.
  - split; [discriminate | tauto].
Qed.

Lemma fetch_data_quotes_witness :
  exists (results : gmap string Quote.t) (msgs : list message),
    fetch_data SECTIONS (fun _ => Ok sample_frame) (World page [])
    = (Ok results, printed (World page []) msgs)
    /\ (results !! "AUDUSD=X" = Some (Quote.Make f_0_5123
                                       (Float.sub f_0_5123 f_0_5)
                                       (Float.mul (SFdiv Float.prec Float.emax
                                                     (Float.sub f_0_5123 f_0_5) f_0_5)
                                                  Float.hundred)
                                       day2)).
Proof.
  destruct (fetch_data_quotes SECTIONS (fun _ => Ok sample_frame) sample_frame
              (World page []) eq_refl) as (results & msgs & E & H).
  exists results, msgs. split; [exact E |].
  apply H. split.
  - vm_compute. repeat first [apply list_elem_of_here | apply list_elem_of_further].
  - exists sample_columns, [(day1, f_0_5); (day2, f_0_5123)], [], (day1, f_0_5),
      (day2, f_0_5123).
    repeat split; reflexivity.
Defined.

Lemma skip_message_length (data : frame) (ins : instrument) :
  length (skip_message data ins)
  = match quote_of data (snd ins) with Some _ => O | None => 1%nat end.
Proof.
  destruct ins as [name ticker]. unfold skip_message, quote_of. cbn [snd].
  destruct (data !! "Close") as [by_ticker|]; [|reflexivity].
  destruct (by_ticker !! ticker) as [column|]; [|reflexivity].
  rewrite <- (List.length_rev (dropna column)).
  destruct (rev (dropna column)) as [|l [|p r]]; reflexivity.
Qed.

Lemma total_instruments (sections : list section) :
  list_sum (map (fun sec : section => length (snd sec)) sections)
  = length (instruments sections).
Proof.
  unfold instruments. induction sections as [|sec l IH]; [reflexivity |].
  simpl. now rewrite List.length_app, IH.
Qed.

Lemma size_stored_le (data : frame) (ts : list instrument)
    (results : gmap string Quote.t) :
  (size (foldl (store data) results ts) <= size results + length ts)%nat.
Proof.
  revert results; induction ts as [|ins ts IH]; intros results; [simpl; lia |].
  simpl foldl. specialize (IH (store data results ins)).
  assert (size (store data results ins) <= S (size results))%nat.
  { unfold store. destruct (quote_of data ins.2) as [q|]; [|lia].
    destruct (results !! ins.2) as [q'|] eqn:E.
    - rewrite map_size_insert_Some; eauto.
    - rewrite map_size_insert_None; auto. }
  simpl length. lia.
Qed.

Lemma size_stored (data : frame) (ts : list instrument)
    (results : gmap string Quote.t) :
  NoDup (map snd ts) ->
  (forall t, t ∈ map snd ts -> results !! t = None) ->
  (size (foldl (store data) results ts) + length (flat_map (skip_message data) ts)
   = size results + length ts)%nat.
Proof.
  revert results; induction ts as [|ins ts IH]; intros results Hnd Hfresh;
    [simpl; lia |].
  cbn [map] in Hnd. apply NoDup_cons in Hnd as [Hhead Hnd].
  simpl foldl. cbn [flat_map]. rewrite List.length_app, skip_message_length.
  rewrite Nat.add_assoc, (Nat.add_comm (size _)), <- Nat.add_assoc.
  rewrite (IH (store data results ins) Hnd).
  - unfold store. destruct (quote_of data ins.2) as [q|]; [|simpl; lia].
    rewrite map_size_insert_None; [simpl; lia |].
    apply Hfresh. cbn [map]. constructor.
  - intros t Ht. rewrite lookup_store.
    destruct (decide (ins.2 = t)) as [<-|_]; [contradiction |].
    apply Hfresh. cbn [map]. now constructor.
Qed.

Lemma skipped_are_unquoted (data : frame) (all ts : list instrument) :
  ts ⊆ all ->
  length (flat_map (skip_message data) ts)
  = length (filter (fun ins : instrument =>
                      foldl (store data) ∅ all !! snd ins = None) ts).
Proof.
  intros Hsub. induction ts as [|ins ts IH]; [reflexivity |].
  cbn [flat_map]. rewrite List.length_app, skip_message_length, filter_cons.
  rewrite IH by (intros x Hx; apply Hsub; now constructor).
  assert (E : foldl (store data) ∅ all !! ins.2 = quote_of data ins.2).
  { rewrite lookup_stored, lookup_empty.
    destruct (decide (ins.2 ∈ map snd all)) as [_|N]; [now destruct (quote_of _ _) |].
    exfalso. apply N. apply list_elem_of_fmap. exists ins. split; [reflexivity |].
    apply Hsub. constructor. }
  destruct (decide (foldl (store data) ∅ all !! ins.2 = None)) as [H|H];
    rewrite E in H; destruct (quote_of data ins.2); try congruence; reflexivity.
Qed.

Lemma skip_message_spec (data : frame) (ins : instrument) :
  match quote_of data (snd ins) with
  | Some _ => skip_message data ins = []
  | None => exists m, skip_message data ins = [m] /\ skip_line data ins m
  end.
Proof.
  destruct ins as [name ticker]. unfold skip_message, quote_of, skip_line. cbn [fst snd].
  destruct (data !! "Close") as [by_ticker|] eqn:E1;
    [|eexists; split; [reflexivity | right; auto]].
  destruct (by_ticker !! ticker) as [column|] eqn:E2;
    [|eexists; split; [reflexivity | right; split; [reflexivity | right; eauto]]].
  pose proof (List.length_rev (dropna column)) as L.
  destruct (rev (dropna column)) as [|l [|p r]]; simpl in L; rewrite <- L.
  - eexists. split; [reflexivity |]. left. split; [reflexivity |].
    exists by_ticker, column. repeat split; auto; lia.
  - eexists. split; [reflexivity |]. left. split; [reflexivity |].
    exists by_ticker, column. repeat split; auto; lia.
  - reflexivity.
Qed.

Lemma skipped_lines (data : frame) (all ts : list instrument) :
  ts ⊆ all ->
  Forall2 (skip_line data)
    (filter (fun ins : instrument => foldl (store data) ∅ all !! snd ins = None) ts)
    (flat_map (skip_message data) ts).
Proof.
  intros Hsub. induction ts as [|ins ts IH]; [constructor |].
  cbn [flat_map]. rewrite filter_cons.
  specialize (IH ltac:(intros x Hx; apply Hsub; now constructor)).
  assert (E : foldl (store data) ∅ all !! ins.2 = quote_of data ins.2).
  { rewrite lookup_stored, lookup_empty.
    destruct (decide (ins.2 ∈ map snd all)) as [_|N]; [now destruct (quote_of _ _) |].
    exfalso. apply N. apply list_elem_of_fmap. exists ins. split; [reflexivity |].
    apply Hsub. constructor. }
  pose proof (skip_message_spec data ins) as S.
  destruct (decide (foldl (store data) ∅ all !! ins.2 = None)) as [H|H];
    rewrite E in H; destruct (quote_of data ins.2); try congruence.
  - destruct S as (m & -> & Hm). now constructor.
  - rewrite S. exact IH.
Qed.

(** X2: every instrument of the catalog is accounted for.  After the
    download line, [fetch_data] prints exactly the skip lines of the
    instruments that end up without a quote, one for each, in catalog
    order, each naming its instrument and saying whether the column was
    too short or missing, and nothing else; the number of quotes never
    exceeds the number of instruments, which is the total that [main]
    prints; and when no ticker is listed twice, quotes and skip lines add
    up to that total. *)
Theorem fetch_data_accounting (sections : list section)
    (download : list string -> result frame) (data : frame) (w : world) :
  download (all_tickers sections) = Ok data ->
  exists (results : gmap string Quote.t) (msgs : list message),
    fetch_data sections download w
    = (Ok results,
       printed w (MsgDownloading (length (all_tickers sections)) :: msgs))
    /\ Forall2 (skip_line data)
         (filter (fun ins : instrument => results !! snd ins = None)
                 (instruments sections))
         msgs
    /\ length msgs
       = length (filter (fun ins : instrument => results !! snd ins = None)
                        (instruments sections))
    /\ list_sum (map (fun sec : section => length (snd sec)) sections)
       = length (instruments sections)
    /\ (size results <= length (instruments sections))%nat
    /\ (NoDup (all_tickers sections) ->
        (size results + length msgs = length (instruments sections))%nat).
Proof.
  intros Hd. eexists _, _. split; [apply (fetch_data_exact _ _ _ _ Hd) |].
  split; [now apply skipped_lines |].
  split; [now apply skipped_are_unquoted |].
  split; [apply total_instruments |].
  split.
  - pose proof (size_stored_le data (instruments sections) ∅) as H.
    rewrite map_size_empty in H. exact H.
  - intros Hnd. rewrite all_tickers_instruments in Hnd.
    rewrite (size_stored data _ ∅ Hnd), map_size_empty; [reflexivity |].
    intros t _. apply lookup_empty.
Qed.

Lemma fetch_data_accounting_witness :
  exists (results : gmap string Quote.t) (msgs : list message),
    fetch_data SECTIONS (fun _ => Ok sample_frame) (World page [])
    = (Ok results, printed (World page []) (MsgDownloading 43 :: msgs))
    /\ (size results + length msgs = 43)%nat
    /\ Forall2 (skip_line sample_frame)
         (filter (fun ins : instrument => results !! snd ins = None)
                 (instruments SECTIONS))
         msgs.
Proof.
  destruct (fetch_data_accounting SECTIONS (fun _ => Ok sample_frame) sample_frame
              (World page []) eq_refl) as (results & msgs & E & F & _ & _ & _ & H).
  exists results, msgs. split; [exact E |]. split; [|exact F].
  apply H. apply (bool_decide_unpack (NoDup (all_tickers SECTIONS))).
  vm_compute. exact I.
Defined.

(** ** The whole run *)

Lemma main_run (sections : list section)
    (download : list string -> result frame) (w : world) :
  main sections download w
  = match fetch_data sections download w with
    | (Raise e, w1) => (Raise e, w1)
    | (Ok results, w1) =>
        let total := list_sum (map (fun sec : section => length (snd sec)) sections) in
        let w2 := printed w1 [MsgFetched (size results) total] in
        if decide (results = ∅) then (Ok tt, printed w2 [MsgNoData])
        else match update_html (build_tbody sections results) w2 with
             | (Ok _, w3) => (Ok tt, printed w3 [MsgDone])
             | (Raise e, w3) => (Raise e, w3)
             end
    end.
Proof.
  unfold main, bind.
  destruct (fetch_data sections download w) as [[results|e] w1]; [|reflexivity].
  rewrite print_run. cbv zeta.
  destruct (decide (results = ∅)); [reflexivity |].
  now destruct (update_html _ _) as [[[]|e] w3].
Qed.

(** The fetch step leaves the document text alone and only prints. *)
Lemma fetch_data_prints (sections : list section)
    (download : list string -> result frame) (w : world) :
  exists msgs : list message,
    snd (fetch_data sections download w) = printed w msgs
    /\ (forall e, download (all_tickers sections) = Raise e ->
        fst (fetch_data sections download w) = Raise e
        /\ msgs = [MsgDownloading (length (all_tickers sections))]).
Proof.
  pose proof (fetch_data_run (fun _ => True) sections download w) as R.
  destruct (download (all_tickers sections)) as [data|e].
  - destruct R as (results & msgs & E & _); [easy | easy |].
    exists msgs. rewrite E. split; [reflexivity | discriminate].
  - exists [MsgDownloading (length (all_tickers sections))]. rewrite R.
    split; [reflexivity |]. now intros e' [= <-].
Qed.

(** X3: a failed download is fatal.  [main] raises what [yf.download]
    raised, having printed the download line only; the document is
    neither read nor written. *)
Theorem main_transport_fault (sections : list section)
    (download : list string -> result frame) (w : world) (e : exn) :
  download (all_tickers sections) = Raise e ->
  main sections download w
  = (Raise e, printed w [MsgDownloading (length (all_tickers sections))]).
Proof.
  intros Hd. rewrite main_run.
  destruct (fetch_data_prints sections download w) as (msgs & Hw & H).
  destruct (H e Hd) as [Hr ->].
  destruct (fetch_data sections download w) as [r w1]. simpl in *. now subst.
Qed.

Lemma main_transport_fault_witness :
  main SECTIONS (fun _ => Raise TransportError) (World page [])
  = (Raise TransportError, World page [EvPrint (MsgDownloading 43)]).
Proof.
  apply (main_transport_fault SECTIONS (fun _ => Raise TransportError) (World page [])).
  reflexivity.
Defined.

(** X4: a run with at least one quote on a document with both markers.
    [main] returns normally; after the fetch it prints the count, reads
    the document, writes it once with the rendered block spliced in, and
    prints the two closing lines. *)
Theorem main_updates_document (sections : list section)
    (download : list string -> result frame) (w : world)
    (results : gmap string Quote.t) (a j : nat) :
  fst (fetch_data sections download w) = Ok results ->
  results <> ∅ ->
  Str.find start_tag (html w) = Some a ->
  Str.find end_tag (html w) = Some j ->
  let new := new_content (html w) (build_tbody sections results) (a + 7) j in
  let total := list_sum (map (fun sec : section => length (snd sec)) sections) in
  main sections download w
  = (Ok tt,
     World new (trace (snd (fetch_data sections download w))
                ++ [EvPrint (MsgFetched (size results) total); EvRead;
                    EvWrite new; EvPrint MsgWrote; EvPrint MsgDone])).
Proof.
  intros Hr Hne Ha Hj new total. rewrite main_run.
  destruct (fetch_data_prints sections download w) as (msgs & Hw & _).
  destruct (fetch_data sections download w) as [r w1]. simpl in Hr, Hw. subst r w1.
  cbv zeta. destruct (decide (results = ∅)); [contradiction |].
  unfold printed. rewrite update_html_run. cbn [html trace snd].
  rewrite Ha, Hj. cbv zeta. cbn [html trace map].
  rewrite <- !List.app_assoc. reflexivity.
Qed.

Lemma main_updates_document_witness :
  exists w' : world,
    main SECTIONS (fun _ => Ok sample_frame) (World page []) = (Ok tt, w')
    /\ Str.take 15 (html w') = "<table><tbody>"  +:+ Str.nl.
Proof.
  pose proof (fetch_data_exact SECTIONS (fun _ => Ok sample_frame) sample_frame
                (World page []) eq_refl) as E.
  eexists. split.
  - apply (main_updates_document SECTIONS (fun _ => Ok sample_frame) (World page [])
             (foldl (store sample_frame) ∅ (instruments SECTIONS)) 7 17).
    + now rewrite E.
    + intros H. apply (f_equal (fun m => m !! "AUDUSD=X")) in H.
      vm_compute in H. discriminate.
    + reflexivity.
    + reflexivity.
  - reflexivity.
Defined.

(** X5: a run with at least one quote on a document that lacks a marker.
    The [ValueError] of [update_html] comes out of [main]; the document
    has been read but not written, and the closing lines are not
    printed. *)
Theorem main_marker_fault (sections : list section)
    (download : list string -> result frame) (w : world)
    (results : gmap string Quote.t) :
  fst (fetch_data sections download w) = Ok results ->
  results <> ∅ ->
  Str.contains start_tag (html w) = false \/ Str.contains end_tag (html w) = false ->
  let total := list_sum (map (fun sec : section => length (snd sec)) sections) in
  main sections download w
  = (Raise ValueError,
     World (html w) (trace (snd (fetch_data sections download w))
                     ++ [EvPrint (MsgFetched (size results) total); EvRead])).
Proof.
  intros Hr Hne Hm total. rewrite main_run.
  destruct (fetch_data_prints sections download w) as (msgs & Hw & _).
  destruct (fetch_data sections download w) as [r w1]. simpl in Hr, Hw. subst r w1.
  cbv zeta. destruct (decide (results = ∅)); [contradiction |].
  unfold printed. rewrite update_html_run. cbn [html trace snd].
  rewrite !StrFacts.contains_false in Hm.
  assert (E : match Str.find start_tag (html w), Str.find end_tag (html w) with
              | Some _, Some _ => False
              | _, _ => True
              end).
  { destruct Hm as [-> | ->]; [exact I |]. now destruct (Str.find start_tag (html w)). }
  destruct (Str.find start_tag (html w)); [destruct (Str.find end_tag (html w)) |];
    try contradiction; cbn [html trace map];
    rewrite <- !List.app_assoc; reflexivity.
Qed.

Lemma main_marker_fault_witness :
  exists w' : world,
    main SECTIONS (fun _ => Ok sample_frame) (World "<table></table>" [])
    = (Raise ValueError, w')
    /\ html w' = "<table></table>".
Proof.
  pose proof (fetch_data_exact SECTIONS (fun _ => Ok sample_frame) sample_frame
                (World "<table></table>" []) eq_refl) as E.
  eexists. split.
  - apply (main_marker_fault SECTIONS (fun _ => Ok sample_frame)
             (World "<table></table>" [])
             (foldl (store sample_frame) ∅ (instruments SECTIONS))).
    + now rewrite E.
    + intros H. apply (f_equal (fun m => m !! "AUDUSD=X")) in H.
      vm_compute in H. discriminate.
    + left. reflexivity.
  - reflexivity.
Defined.

Lemma prints_are_not_writes (msgs : list message) :
  List.filter is_write (map EvPrint msgs) = [].
Proof. induction msgs as [|m l IH]; [reflexivity | exact IH]. Qed.

(** X6: what a run can do to the document.  Whatever the download gives
    and whatever the document holds, either [main] writes nothing and the
    document keeps its text, or [main] returns normally having written
    exactly once, the text it leaves behind.  A run that raises has not
    touched the document. *)
Theorem main_document_effect (sections : list section)
    (download : list string -> result frame) (w w' : world) (r : result unit) :
  main sections download w = (r, w') ->
  exists evs : list event,
    trace w' = trace w ++ evs
    /\ ((html w' = html w /\ List.filter is_write evs = [])
        \/ (r = Ok tt
            /\ List.filter is_write evs = [EvWrite (html w')]
            /\ exists (results : gmap string Quote.t) (a j : nat),
                 results <> ∅
                 /\ html w'
                    = new_content (html w) (build_tbody sections results) (a + 7) j)).
Proof.
  rewrite main_run.
  destruct (fetch_data_prints sections download w) as (msgs & Hw & _).
  destruct (fetch_data sections download w) as [[results|e] w1]; simpl in Hw; subst w1.
  - cbv zeta. destruct (decide (results = ∅)) as [_|Hne].
    + intros [= <- <-]. rewrite !printed_app. eexists. split; [reflexivity |].
      left. split; [reflexivity | apply prints_are_not_writes].
    + unfold printed. rewrite update_html_run. cbn [html trace].
      destruct (Str.find start_tag (html w)) as [a|];
        [destruct (Str.find end_tag (html w)) as [j|] |];
        cbv zeta; cbn [html trace map]; intros [= <- <-]; cbn [html trace];
        rewrite <- !List.app_assoc; (eexists; split; [reflexivity |]).
      * right. split; [reflexivity |]. split.
        -- rewrite List.filter_app, prints_are_not_writes. reflexivity.
        -- exists results, a, j. now split.
      * left. split; [reflexivity |].
        rewrite List.filter_app, prints_are_not_writes. reflexivity.
      * left. split; [reflexivity |].
        rewrite List.filter_app, prints_are_not_writes. reflexivity.
  - intros [= <- <-]. eexists. split; [reflexivity |].
    left. split; [reflexivity | apply prints_are_not_writes].
Qed.

Lemma main_document_effect_witness :
  exists evs : list event,
    trace (snd (main SECTIONS (fun _ => Ok sample_frame) (World "<table></table>" [])))
    = evs
    /\ html (snd (main SECTIONS (fun _ => Ok sample_frame) (World "<table></table>" [])))
       = "<table></table>".
Proof.
  destruct (main SECTIONS (fun _ => Ok sample_frame) (World "<table></table>" []))
    as [r w'] eqn:E.
  destruct (main_document_effect _ _ _ _ _ E) as (evs & T & H).
  exists evs. split; [exact T |].
  destruct H as [[H _] | (Hr & _)]; [exact H |].
  exfalso. subst r. vm_compute in E. discriminate.
Defined.

(** ** The rendered block and the end marker *)

Lemma clean_app (s t : string) :
  clean s = true -> clean t = true -> clean (s +:+ t) = true.
Proof.
  intros Hs Ht. induction s as [|c s IH]; [exact Ht |].
  cbn [clean] in Hs. apply andb_true_iff in Hs as [Hc Hs].
  cbn [String.append clean]. rewrite (IH Hs), andb_true_r.
  destruct (decide (c = "b"%char)); [|reflexivity].
  destruct s as [|y s]; [discriminate | exact Hc].
Qed.

Lemma clean_suffix (p x : string) : clean (p +:+ x) = true -> clean x = true.
Proof.
  induction p as [|c p IH]; [trivial |].
  cbn [String.append clean]. intros H. apply andb_true_iff in H as [_ H]. auto.
Qed.

Lemma not_b_clean (s : string) : all_chars not_b s = true -> clean s = true.
Proof.
  induction s as [|c s IH]; [reflexivity |].
  cbn [all_chars clean]. intros H. apply andb_true_iff in H as [Hc Hs].
  rewrite (IH Hs), andb_true_r. unfold not_b in Hc.
  destruct (decide (c = "b"%char)) as [->|]; [discriminate | reflexivity].
Qed.

(** A clean text does not contain [</tbody>]. *)
Lemma clean_no_end_tag (s : string) :
  clean s = true -> Str.contains end_tag s = false.
Proof.
  intros H. destruct (Str.contains end_tag s) eqn:E; [|reflexivity].
  apply StrFacts.contains_occurs in E as (p & r & ->).
  apply clean_suffix in H. discriminate.
Qed.

Lemma numeric_not_b (c : ascii) : numeric c = true -> not_b c = true.
Proof.
  intros H. unfold not_b. destruct (decide (c = "b"%char)) as [->|N].
  - vm_compute in H. discriminate.
  - now rewrite bool_decide_eq_false_2.
Qed.

Lemma fixed_not_b (grouping : bool) (d : nat) (v : spec_float) :
  all_chars not_b (Fmt.fixed grouping d v) = true.
Proof.
  assert (U : forall n, all_chars not_b (Fmt.unsigned grouping d n) = true).
  { intros n. apply (all_chars_weaken numeric); [apply numeric_not_b |].
    apply unsigned_numeric. }
  destruct v as [s|s| |s m e]; unfold Fmt.fixed;
    rewrite ?all_chars_app, ?U; try destruct s; reflexivity.
Qed.

Lemma fmt_price_clean (v : spec_float) : clean (fmt_price v) = true.
Proof.
  apply not_b_clean. rewrite fmt_price_form.
  destruct (Float.geb _ _); [|destruct (Float.geb _ _)]; apply fixed_not_b.
Qed.

Lemma fmt_change_clean (v r : spec_float) : clean (fmt_change v r) = true.
Proof.
  apply not_b_clean. destruct (fmt_change_fixed v r) as (g & d & ->).
  rewrite all_chars_app, fixed_not_b. unfold plus_sign.
  now destruct (Float.geb v Float.zero).
Qed.

Lemma fmt_time_clean (dt : timestamp) : clean (fmt_time dt) = true.
Proof.
  assert (D : forall n, not_b (Fmt.digit n) = true).
  { intros n. apply numeric_not_b. unfold numeric. now rewrite digit_is_digit. }
  apply not_b_clean. unfold fmt_time, pad2. cbn [String.append all_chars].
  now rewrite !D.
Qed.

Lemma css_class_clean (chg : spec_float) : clean (css_class chg) = true.
Proof. unfold css_class. now destruct (Float.geb chg Float.zero). Qed.

Ltac clean_parts :=
  repeat match goal with
         | |- clean (_ +:+ _) = true => apply clean_app
         | |- clean (fmt_price _) = true => apply fmt_price_clean
         | |- clean (fmt_change _ _) = true => apply fmt_change_clean
         | |- clean (fmt_time _) = true => apply fmt_time_clean
         | |- clean (css_class _) = true => apply css_class_clean
         | H : clean ?x = true |- clean ?x = true => exact H
         | |- clean dq = true => reflexivity
         | |- clean Str.nl = true => reflexivity
         | |- clean (String _ _) = true => reflexivity
         end.

Lemma row_clean (name : string) (d : Quote.t) :
  clean name = true -> clean (row name d) = true.
Proof. intros H. unfold row. cbv zeta. clean_parts. Qed.

Lemma header_lines_clean (title : string) :
  clean title = true ->
  clean (comment_line title) = true /\ clean (header_line title) = true.
Proof. intros H. unfold comment_line, header_line. split; clean_parts. Qed.

Lemma rows_clean (results : gmap string Quote.t) (l : list instrument) :
  forallb (fun ins : instrument => clean (fst ins)) l = true ->
  forallb clean (rows results l) = true.
Proof.
  unfold rows. induction l as [|[name ticker] l IH]; [reflexivity |].
  cbn [forallb fst flat_map]. intros H. apply andb_true_iff in H as [Hn Hl].
  rewrite List.forallb_app, (IH Hl), andb_true_r.
  destruct (results !! ticker); [|reflexivity].
  cbn [forallb]. now rewrite row_clean.
Qed.

Lemma tbody_lines_clean (sections : list section) (results : gmap string Quote.t) :
  clean_catalog sections = true ->
  forallb clean (tbody_lines sections results) = true.
Proof.
  unfold clean_catalog, tbody_lines.
  induction sections as [|[title l] sections IH]; [reflexivity |].
  cbn [forallb fst snd flat_map]. intros H.
  apply andb_true_iff in H as [H Hs]. apply andb_true_iff in H as [Ht Hl].
  destruct (header_lines_clean title Ht) as [Hc Hh].
  rewrite List.forallb_app, (IH Hs), andb_true_r.
  cbn [forallb]. now rewrite Hc, Hh, rows_clean.
Qed.

Lemma concat_clean (lines : list string) :
  forallb clean lines = true -> clean (String.concat Str.nl lines) = true.
Proof.
  induction lines as [|x l IH]; [reflexivity |].
  destruct l as [|y l].
  - cbn [forallb String.concat]. now rewrite andb_true_r.
  - intros H. change (forallb clean (x :: y :: l))
      with (clean x && forallb clean (y :: l)) in H.
    apply andb_true_iff in H as [Hx Hl].
    change (String.concat Str.nl (x :: y :: l))
      with (x +:+ Str.nl +:+ String.concat Str.nl (y :: l)).
    clean_parts. exact (IH Hl).
Qed.

(** X7: when no title and no display name of the catalog has a [b]
    followed by an [o] or in last place, as in the catalog of the script,
    the block that [build_tbody] renders never contains the end marker,
    whatever the quotes are. *)
Theorem build_tbody_has_no_end_tag (sections : list section)
    (results : gmap string Quote.t) :
  clean_catalog sections = true ->
  Str.contains end_tag (build_tbody sections results) = false.
Proof.
  intros H. apply clean_no_end_tag. unfold build_tbody.
  apply concat_clean, tbody_lines_clean, H.
Qed.

Lemma build_tbody_has_no_end_tag_witness :
  Str.contains end_tag
    (build_tbody SECTIONS
       {[ "GC=F" := Quote.Make f_1234_5 f_5_2 f_0_5 day2 ]}) = false.
Proof.
  apply (build_tbody_has_no_end_tag SECTIONS
           {[ "GC=F" := Quote.Make f_1234_5 f_5_2 f_0_5 day2 ]}).
  vm_compute. reflexivity.
Defined.

(** ** Running twice *)

(** X8: patching is idempotent on a well-formed document.  When the
    first start marker comes before the first end marker and the first
    block holds no end marker, a second [update_html] leaves exactly the
    document that it would have made of the original; with the same
    block it changes nothing. *)
Theorem update_html_rerun (content t1 t2 : string) (tr tr' : list event)
    (a j : nat) :
  Str.find start_tag content = Some a ->
  Str.find end_tag content = Some j ->
  (a + 7 <= j)%nat ->
  Str.contains end_tag t1 = false ->
  exists w1 w2 : world,
    update_html t1 (World content tr) = (Ok tt, w1)
    /\ update_html t2 (World (html w1) tr') = (Ok tt, w2)
    /\ html w2 = html (snd (update_html t2 (World content tr')))
    /\ (t1 = t2 -> html w2 = html w1).
Proof.
  intros Fa Fj Hij Ht.
  destruct (update_html_twice content t1 t2 a j Fa Fj Hij Ht) as (Fa' & Fj' & E).
  eexists _, _. split; [rewrite update_html_run, Fa, Fj; reflexivity |].
  cbn [html]. split; [rewrite update_html_run, Fa', Fj'; reflexivity |].
  cbn [html]. rewrite update_html_run, Fa, Fj. cbn [snd html].
  split; [exact E |]. intros <-. exact E.
Qed.

Lemma update_html_rerun_witness :
  exists w1 w2 : world,
    update_html "<tr>1</tr>" (World page []) = (Ok tt, w1)
    /\ update_html "<tr>1</tr>" (World (html w1) []) = (Ok tt, w2)
    /\ html w2 = html w1.
Proof.
  destruct (update_html_rerun page "<tr>1</tr>" "<tr>1</tr>" [] [] 7 17)
    as (w1 & w2 & E1 & E2 & _ & H); try reflexivity; [simpl; lia |].
  exists w1, w2. auto.
Defined.

Lemma fetch_data_same_results (sections : list section)
    (download : list string -> result frame) (w w' : world) :
  fst (fetch_data sections download w) = fst (fetch_data sections download w').
Proof.
  destruct (download (all_tickers sections)) as [data|e] eqn:Hd.
  - now rewrite !(fetch_data_exact _ _ _ _ Hd).
  - destruct (fetch_data_prints sections download w) as (? & _ & H).
    destruct (fetch_data_prints sections download w') as (? & _ & H').
    destruct (H e Hd) as [-> _]. destruct (H' e Hd) as [-> _]. reflexivity.
Qed.

(** The text that a run leaves in the document. *)
Lemma main_html (sections : list section)
    (download : list string -> result frame) (w : world) :
  html (snd (main sections download w))
  = match fst (fetch_data sections download w) with
    | Ok results =>
        if decide (results = ∅) then html w
        else match Str.find start_tag (html w), Str.find end_tag (html w) with
             | Some a, Some j =>
                 new_content (html w) (build_tbody sections results) (a + 7) j
             | _, _ => html w
             end
    | Raise _ => html w
    end.
Proof.
  rewrite main_run.
  destruct (fetch_data_prints sections download w) as (msgs & Hw & _).
  destruct (fetch_data sections download w) as [[results|e] w1]; simpl in Hw; subst w1;
    [|reflexivity].
  cbv zeta. cbn [fst]. destruct (decide (results = ∅)); [reflexivity |].
  unfold printed. rewrite update_html_run. cbn [html trace].
  destruct (Str.find start_tag (html w)); [|reflexivity].
  destruct (Str.find end_tag (html w)); reflexivity.
Qed.

(** X9: running the script again replaces the previous snapshot.  For a
    catalog with clean titles and names and a document whose start marker
    comes before its end marker, a run that fetches at least one quote
    leaves the same document whether or not an earlier run, with any
    download, has gone before it. *)
Theorem main_rerun (sections : list section)
    (download1 download2 : list string -> result frame) (w : world)
    (a j : nat) (results : gmap string Quote.t) :
  clean_catalog sections = true ->
  Str.find start_tag (html w) = Some a ->
  Str.find end_tag (html w) = Some j ->
  (a + 7 <= j)%nat ->
  fst (fetch_data sections download2 w) = Ok results ->
  results <> ∅ ->
  html (snd (main sections download2 (snd (main sections download1 w))))
  = html (snd (main sections download2 w)).
Proof.
  intros Hc Fa Fj Hij Hr Hne.
  rewrite (main_html sections download2 (snd _)).
  rewrite (fetch_data_same_results sections download2 _ w), Hr.
  rewrite (main_html sections download2 w), Hr.
  destruct (decide (results = ∅)); [contradiction |].
  rewrite Fa, Fj.
  rewrite (main_html sections download1 w), Fa, Fj.
  destruct (fst (fetch_data sections download1 w)) as [r1|e];
    [destruct (decide (r1 = ∅)) |]; rewrite ?Fa, ?Fj; try reflexivity.
  assert (Ht : Str.contains end_tag (build_tbody sections r1) = false).
  { apply clean_no_end_tag. unfold build_tbody.
    apply concat_clean, tbody_lines_clean, Hc. }
  destruct (update_html_twice (html w) (build_tbody sections r1)
              (build_tbody sections results) a j Fa Fj Hij Ht) as (Fa' & Fj' & E).
  rewrite Fa', Fj'. exact E.
Qed.

Lemma main_rerun_witness :
  html (snd (main SECTIONS (fun _ => Ok sample_frame)
               (snd (main SECTIONS (fun _ => Ok sample_frame) (World page [])))))
  = html (snd (main SECTIONS (fun _ => Ok sample_frame) (World page []))).
Proof.
  pose proof (fetch_data_exact SECTIONS (fun _ => Ok sample_frame) sample_frame
                (World page []) eq_refl) as E.
  apply (main_rerun SECTIONS (fun _ => Ok sample_frame) (fun _ => Ok sample_frame)
           (World page []) 7 17
           (foldl (store sample_frame) ∅ (instruments SECTIONS))).
  - vm_compute. reflexivity.
  - reflexivity.
  - reflexivity.
  - simpl. lia.
  - now rewrite E.
  - intros H. apply (f_equal (fun m => m !! "AUDUSD=X")) in H.
    vm_compute in H. discriminate.
Defined.

(** ** The rendered block *)

Lemma rows_length (results : gmap string Quote.t) (l : list instrument) :
  length (rows results l)
  = length (filter (fun ins : instrument => is_Some (results !! snd ins)) l).
Proof.
  unfold rows. induction l as [|[name ticker] l IH]; [reflexivity |].
  cbn [flat_map]. rewrite List.length_app, IH, filter_cons. cbn [snd].
  destruct (results !! ticker) as [q|].
  - destruct (decide (is_Some (Some q))) as [_|N]; [reflexivity |].
    exfalso. apply N. eauto.
  - destruct (decide (is_Some (@None Quote.t))) as [[? [=]]|_]. reflexivity.
Qed.

(** X10: the size of the block.  Every section gives its comment line
    and its header row, also when none of its instruments has a quote,
    and every listed instrument with a quote gives one row: the block has
    two lines for each section and one for each such instrument. *)
Theorem tbody_lines_count (sections : list section)
    (results : gmap string Quote.t) :
  length (tbody_lines sections results)
  = (2 * length sections
     + length (filter (fun ins : instrument => is_Some (results !! snd ins))
                      (instruments sections)))%nat
  /\ tbody_lines sections ∅
     = flat_map (fun sec : section => [comment_line (fst sec); header_line (fst sec)])
                sections.
Proof.
  split.
  - unfold tbody_lines, instruments.
    induction sections as [|[title l] sections IH]; [reflexivity |].
    cbn [flat_map snd length]. rewrite List.length_app, IH, filter_app, List.length_app.
    cbn [length]. rewrite rows_length. lia.
  - unfold tbody_lines. induction sections as [|[title l] sections IH]; [reflexivity |].
    cbn [flat_map fst]. rewrite IH. do 2 f_equal.
    assert (E : rows ∅ l = []); [|now rewrite E].
    unfold rows. induction l as [|[name ticker] l IHl]; [reflexivity |].
    cbn [flat_map]. now rewrite lookup_empty, IHl.
Qed.

Lemma rows_agree (r1 r2 : gmap string Quote.t) (l : list instrument) :
  (forall ins, ins ∈ l -> r1 !! snd ins = r2 !! snd ins) ->
  rows r1 l = rows r2 l.
Proof.
  unfold rows. induction l as [|[name ticker] l IH]; intros H; [reflexivity |].
  cbn [flat_map]. rewrite IH by (intros ins Hin; apply H; now constructor).
  pose proof (H (name, ticker) ltac:(constructor)) as E. cbn [snd] in E.
  now rewrite E.
Qed.

(** X11: the block shows the catalog and nothing else.  Two sets of
    quotes that agree on the tickers of the catalog render the same
    block: a quote stored under any other ticker is never shown. *)
Theorem build_tbody_catalog_only (sections : list section)
    (r1 r2 : gmap string Quote.t) :
  (forall ticker, ticker ∈ all_tickers sections -> r1 !! ticker = r2 !! ticker) ->
  build_tbody sections r1 = build_tbody sections r2.
Proof.
  intros H. unfold build_tbody. f_equal. unfold tbody_lines.
  induction sections as [|[title l] sections IH]; [reflexivity |].
  cbn [flat_map]. rewrite IH.
  - do 3 f_equal. apply rows_agree. intros ins Hin. apply H.
    unfold all_tickers. cbn [flat_map snd]. apply elem_of_app. left.
    apply list_elem_of_fmap. eauto.
  - intros ticker Hin. apply H. unfold all_tickers. cbn [flat_map].
    apply elem_of_app. now right.
Qed.

Lemma build_tbody_catalog_only_witness :
  build_tbody SECTIONS {[ "XYZ" := Quote.Make f_1234_5 f_5_2 f_0_5 day2 ]}
  = build_tbody SECTIONS ∅.
Proof.
  apply (build_tbody_catalog_only SECTIONS).
  intros ticker Hin. rewrite lookup_empty. apply lookup_singleton_ne.
  intros <-. revert Hin. apply (bool_decide_unpack (¬ "XYZ" ∈ all_tickers SECTIONS)).
  vm_compute. exact I.
Defined.

(** ** Signs of the computed changes *)

Lemma shr_1_nonneg (mrs : shr_record) : 0 <= shr_m mrs -> 0 <= shr_m (shr_1 mrs).
Proof.
  destruct mrs as [m r s]. destruct m as [|p|p]; try destruct p; simpl; lia.
Qed.

Lemma iter_pos_nonneg (p : positive) (mrs : shr_record) :
  0 <= shr_m mrs -> 0 <= shr_m (SpecFloat.iter_pos shr_1 p mrs).
Proof.
  revert mrs; induction p as [p IH|p IH|]; intros mrs H; simpl;
    auto using shr_1_nonneg.
Qed.

Lemma shr_fexp_nonneg (m e : Z) (l : location) :
  0 <= m -> 0 <= shr_m (fst (shr_fexp Float.prec Float.emax m e l)).
Proof.
  intros H. unfold shr_fexp, shr.
  assert (H0 : 0 <= shr_m (shr_record_of_loc m l)) by (destruct l as [|[]]; exact H).
  destruct (_ - e); cbn [fst]; auto using iter_pos_nonneg.
Qed.

(** Rounding keeps the sign it is given and never yields a NaN. *)
Lemma binary_round_aux_sign (s : bool) (m e : Z) (l : location) :
  0 <= m ->
  Float.is_nan (binary_round_aux Float.prec Float.emax s m e l) = false
  /\ sign_bit (binary_round_aux Float.prec Float.emax s m e l) = s.
Proof.
  intros H. unfold binary_round_aux.
  pose proof (shr_fexp_nonneg m e l H) as H1.
  destruct (shr_fexp Float.prec Float.emax m e l) as [mrs' e']. cbn [fst] in H1.
  assert (H2 : 0 <= round_nearest_even (shr_m mrs') (loc_of_shr_record mrs')).
  { unfold round_nearest_even. destruct (loc_of_shr_record mrs') as [|[]];
      try destruct (Z.even _); lia. }
  pose proof (shr_fexp_nonneg _ e' loc_Exact H2) as H3.
  destruct (shr_fexp Float.prec Float.emax _ e' loc_Exact) as [mrs'' e''].
  cbn [fst] in H3. destruct (shr_m mrs'') as [|p|p]; [easy | | lia].
  now destruct (e'' <=? _).
Qed.

Lemma div_sign (sx sy : bool) (mx my : positive) (ex ey : Z) :
  let q := SFdiv Float.prec Float.emax (S754_finite sx mx ex) (S754_finite sy my ey) in
  Float.is_nan q = false /\ sign_bit q = xorb sx sy.
Proof.
  cbn [SFdiv]. unfold SFdiv_core_binary.
  set (s := (ex - ey - _)).
  set (m' := match s with Z0 => Z.pos mx | Zpos _ => Z.shiftl (Z.pos mx) s | Zneg _ => 0 end).
  assert (Hm : 0 <= m').
  { unfold m'. destruct s; try lia. apply Z.shiftl_nonneg. lia. }
  pose proof (Z.div_pos m' (Z.pos my) Hm ltac:(lia)) as Hq.
  unfold Z.div in Hq. destruct (Z.div_eucl m' (Z.pos my)) as [q r]. cbn [fst] in Hq.
  now apply binary_round_aux_sign.
Qed.

Lemma mul_hundred_sign (x : spec_float) :
  Float.is_nan x = false ->
  Float.is_nan (Float.mul x Float.hundred) = false
  /\ sign_bit (Float.mul x Float.hundred) = sign_bit x.
Proof.
  intros H. destruct x as [s|s| |s m e]; try discriminate;
    unfold Float.mul, Float.hundred; cbn [SFmul sign_bit].
  - now rewrite xorb_false_r.
  - now rewrite xorb_false_r.
  - rewrite <- (xorb_false_r s) at 3. apply binary_round_aux_sign. lia.
Qed.

(** X12: the sign of the percent change.  For a finite change and a
    finite non-zero previous close the percent change is computed
    without error, is not a NaN and has the sign of the change when the
    previous close is positive, the opposite sign when it is negative;
    its text holds a minus sign exactly in the second case.  The cell
    takes its class from the change, so after a rise from a negative
    close it prints a minus sign in class [chg-pos]. *)
Theorem percent_change_sign (chg : spec_float) (sp : bool) (mp : positive) (ep : Z) :
  Float.is_finite chg = true ->
  exists pct : spec_float,
    percent_change chg (S754_finite sp mp ep) = Ok pct
    /\ Float.is_nan pct = false
    /\ sign_bit pct = xorb (sign_bit chg) sp
    /\ count_char "-" (fmt_change pct Float.hundred)
       = (if xorb (sign_bit chg) sp then 1 else 0)%nat
    /\ (sign_bit chg = false -> sp = true ->
        css_class chg = "chg-pos"
        /\ count_char "-" (fmt_change pct Float.hundred) = 1%nat).
Proof.
  intros Hf. unfold percent_change, Float.div. cbn [Float.truthy rbind].
  eexists. split; [reflexivity |].
  assert (D : Float.is_nan (SFdiv Float.prec Float.emax chg (S754_finite sp mp ep)) = false
              /\ sign_bit (SFdiv Float.prec Float.emax chg (S754_finite sp mp ep))
                 = xorb (sign_bit chg) sp).
  { destruct chg as [s|s| |s m e]; try discriminate; [now split | apply div_sign]. }
  destruct D as [D1 D2].
  destruct (mul_hundred_sign _ D1) as [M1 M2]. rewrite D2 in M2.
  set (pct := Float.mul _ Float.hundred) in *.
  assert (C : count_char "-" (fmt_change pct Float.hundred)
              = (if xorb (sign_bit chg) sp then 1 else 0)%nat).
  { destruct (fmt_change_fixed pct Float.hundred) as (g & d & ->).
    destruct (fixed_signs g d pct) as (_ & Hm & _).
    rewrite count_char_app, Hm, M2. unfold plus_sign.
    now destruct (Float.geb pct Float.zero). }
  repeat split; try assumption.
  - destruct chg as [s|s| |s m e]; try discriminate; cbn [sign_bit] in H; now subst.
  - rewrite C, H, H0. reflexivity.
Qed.

Lemma percent_change_sign_witness :
  exists pct : spec_float,
    percent_change Float.one (SFopp Float.ten) = Ok pct
    /\ css_class Float.one = "chg-pos"
    /\ count_char "-" (fmt_change pct Float.hundred) = 1%nat.
Proof.
  destruct (percent_change_sign Float.one true 5629499534213120 (-49) eq_refl)
    as (pct & E & _ & _ & _ & H).
  exists pct. split; [exact E |]. apply H; reflexivity.
Defined.

(** X13: an unchanged close.  When the last two valid closing prices are
    the same finite number, the change is [+0.0], the percent change is
    computed without error and is a zero, the change cell reads [+0.00],
    [+0.000] or [+0.0000] and the class is [chg-pos]. *)
Theorem unchanged_close (x : spec_float) :
  Float.is_finite x = true ->
  Float.sub x x = Float.zero
  /\ (exists s, percent_change (Float.sub x x) x = Ok (S754_zero s))
  /\ css_class (Float.sub x x) = "chg-pos"
  /\ (fmt_change (Float.sub x x) x = "+0.00"
      \/ fmt_change (Float.sub x x) x = "+0.000"
      \/ fmt_change (Float.sub x x) x = "+0.0000").
Proof.
  intros Hf.
  assert (E : Float.sub x x = Float.zero).
  { destruct x as [s|s| |s m e]; try discriminate; unfold Float.sub; cbn [SFsub].
    - now destruct s.
    - rewrite Z.sub_diag. reflexivity. }
  rewrite E. split; [reflexivity |]. split; [|split; [reflexivity |]].
  - destruct x as [s|s| |s m e]; try discriminate; unfold percent_change, Float.div;
      cbn [Float.truthy rbind]; eauto.
  - rewrite fmt_change_form.
    destruct (Float.geb (Float.abs x) Float.ten); [now left |].
    destruct (Float.geb (Float.abs x) Float.one); [right; now left | right; now right].
Qed.

Lemma unchanged_close_witness :
  Float.sub f_1234_5 f_1234_5 = Float.zero
  /\ fmt_change (Float.sub f_1234_5 f_1234_5) f_1234_5 = "+0.00".
Proof.
  destruct (unchanged_close f_1234_5 eq_refl) as (E & _ & _ & _).
  split; [exact E |]. rewrite E. reflexivity.
Defined.

(** X14: colour and sign agree in the change cell.  For every change,
    NaN and infinities included, the class is [chg-pos] exactly when the
    text of [fmt_change] starts with a plus sign. *)
Theorem css_class_matches_sign (v r : spec_float) :
  css_class v = "chg-pos" <-> exists rest, fmt_change v r = String "+" rest.
Proof.
  destruct (fmt_change_fixed v r) as (g & d & ->).
  destruct (fixed_signs g d v) as (Hp & _ & _).
  unfold css_class, plus_sign. destruct (Float.geb v Float.zero).
  - split; [intros _; simpl; eauto | reflexivity].
  - split; [discriminate |]. intros [rest E]. simpl in E.
    rewrite E in Hp. simpl in Hp. discriminate.
Qed.

(** X15: the sign of a price.  [fmt_price] never prints a plus sign; it
    prints one minus sign, in front, exactly when the sign bit of the
    value is set, also for a negative zero and for a negative value that
    rounds to zero. *)
Theorem fmt_price_sign (v : spec_float) :
  count_char "+" (fmt_price v) = O
  /\ count_char "-" (fmt_price v) = (if sign_bit v then 1 else 0)%nat
  /\ (sign_bit v = true -> exists rest, fmt_price v = String "-" rest).
Proof.
  rewrite fmt_price_form.
  destruct (Float.geb _ _); [|destruct (Float.geb _ _)]; apply fixed_signs.
Qed.

(** ** Dates *)

Lemma digit_value (n : Z) :
  Z.of_nat (nat_of_ascii (Fmt.digit n)) - 48 = n mod 10.
Proof.
  unfold Fmt.digit. pose proof (Z.mod_pos_bound n 10 eq_refl) as B.
  rewrite nat_ascii_embedding by lia. lia.
Qed.

(** X16: [fmt_time] writes the day and the month with two digits each
    and a slash between them: the text has five characters, and reading
    the digits back gives the day and the month. *)
Theorem fmt_time_shape (dt : timestamp) :
  0 <= ts_day dt < 100 ->
  0 <= ts_month dt < 100 ->
  exists d1 d2 m1 m2 : ascii,
    fmt_time dt = String d1 (String d2 (String "/" (String m1 (String m2 ""))))
    /\ is_digit d1 = true /\ is_digit d2 = true
    /\ is_digit m1 = true /\ is_digit m2 = true
    /\ ts_day dt
       = 10 * (Z.of_nat (nat_of_ascii d1) - 48) + (Z.of_nat (nat_of_ascii d2) - 48)
    /\ ts_month dt
       = 10 * (Z.of_nat (nat_of_ascii m1) - 48) + (Z.of_nat (nat_of_ascii m2) - 48).
Proof.
  intros Hd Hm.
  assert (V : forall n, 0 <= n < 100 -> n = 10 * ((n / 10) mod 10) + n mod 10).
  { intros n Hn. rewrite (Z.mod_small (n / 10)).
    - apply Z.div_mod. lia.
    - split; [apply Z.div_pos; lia | apply Z.div_lt_upper_bound; lia]. }
  exists (Fmt.digit (ts_day dt / 10)), (Fmt.digit (ts_day dt)),
         (Fmt.digit (ts_month dt / 10)), (Fmt.digit (ts_month dt)).
  rewrite !digit_is_digit, !digit_value. repeat split; auto.
Qed.

Lemma fmt_time_shape_witness : fmt_time day2 = "04/11".
Proof.
  destruct (fmt_time_shape day2) as (d1 & d2 & m1 & m2 & E & _);
    [simpl; lia | simpl; lia |].
  reflexivity.
Defined.

(** ** An empty catalog *)

(** X17: with no section in the catalog the run asks for no ticker,
    fetches nothing and, when the download comes back, ends normally
    after three lines of output without touching the document. *)
Theorem main_empty_catalog (download : list string -> result frame)
    (data : frame) (w : world) :
  download [] = Ok data ->
  main [] download w
  = (Ok tt, printed w [MsgDownloading 0; MsgFetched 0 0; MsgNoData]).
Proof.
  intros Hd. rewrite main_run, (fetch_data_exact [] download data w Hd).
  cbn [instruments flat_map foldl all_tickers length]. cbv zeta.
  destruct (decide ((∅ : gmap string Quote.t) = ∅)) as [_|N]; [|congruence].
  rewrite !printed_app, map_size_empty. reflexivity.
Qed.

Lemma main_empty_catalog_witness :
  main [] (fun _ => Ok sample_frame) (World page [])
  = (Ok tt, World page [EvPrint (MsgDownloading 0); EvPrint (MsgFetched 0 0);
                         EvPrint MsgNoData]).
Proof.
  apply (main_empty_catalog (fun _ => Ok sample_frame) sample_frame (World page [])).
  reflexivity.
Defined.
